(** * VimeoCrawler3: a shallow embedding of [VimeoCrawler3.py]

    The development follows the source file top-down: the Python string
    primitives the crawler relies on, the [URL] link classifier, the site
    walker [getItemsFromURL], the download engine [processVideo] with its
    [ProgressIndicator], and the duplicate reconciler [removeDuplicates].

    Modelling conventions.
    - A Python [str] is a [string]: a sequence of code points below 256.
      [isspace], [isdigit] and [lower] are the Unicode ones restricted to
      that range.
    - Python integers are [Z]; indices and lengths are [nat].
    - A Python [float] is a binary64 number, a [spec_float]; sums are
      rounded to nearest, ties to even.
    - An exception is a value of [exn]; a call that may raise returns a
      [result].
    - The browser, the network and the file system are reached through
      explicit records of operations; the crawler's own fields are threaded
      as state. *)

From Stdlib Require Import ZArith List Sorted String Ascii Lia Bool SpecFloat.
From Stdlib Require Import DecimalString DecimalPos DecimalN.
From stdpp Require Import base gmap strings list sorting.

Open Scope Z_scope.

(** ** Exceptions and results *)

(** [OutOfFuel] is not a Python exception: it marks a run of the model
    whose step budget ended while the Python loop would go on. *)

Inductive exn : Type :=
  | ValueError
  | AssertionError
  | UnboundLocalError
  | CurlError
  | KeyboardInterrupt
  | OverflowError
  | FileNotFoundError
  | OutOfFuel.

Inductive result (A : Type) : Type :=
  | Ok (a : A)
  | Raise (e : exn).

Arguments Ok {A} a.
Arguments Raise {A} e.

Definition bind_result {A B} (r : result A) (k : A -> result B) : result B :=
  match r with
  | Ok a => k a
  | Raise e => Raise e
  end.

(** ** Python string primitives *)

Module Py.

Definition code (c : ascii) : nat := nat_of_ascii c.

(** [c.isspace()] *)
Definition isspace (c : ascii) : bool :=
  let n := code c in
  ((9 <=? n) && (n <=? 13) || (28 <=? n) && (n <=? 32)
   || (n =? 133) || (n =? 160))%nat.

(** [c.isdigit()] on one character: the decimal digits and the
    superscripts one, two and three. *)
Definition isdigit_chr (c : ascii) : bool :=
  let n := code c in
  ((48 <=? n) && (n <=? 57) || (n =? 178) || (n =? 179) || (n =? 185))%nat.

(** The characters [int()] reads as digits. *)
Definition isdecimal_chr (c : ascii) : bool :=
  let n := code c in ((48 <=? n) && (n <=? 57))%nat.

(** [c.lower()] *)
Definition lower_chr (c : ascii) : ascii :=
  let n := code c in
  if ((65 <=? n) && (n <=? 90)
      || (192 <=? n) && (n <=? 222) && negb (n =? 215))%nat
  then ascii_of_nat (n + 32) else c.

Fixpoint all_chr (p : ascii -> bool) (s : string) : bool :=
  match s with
  | EmptyString => true
  | String c s' => p c && all_chr p s'
  end.

Fixpoint map_chr (f : ascii -> ascii) (s : string) : string :=
  match s with
  | EmptyString => EmptyString
  | String c s' => String (f c) (map_chr f s')
  end.

(** [s.lower()] *)
Definition lower (s : string) : string := map_chr lower_chr s.

(** [s.isdigit()]: false on the empty string. *)
Definition isdigit (s : string) : bool :=
  match s with
  | EmptyString => false
  | _ => all_chr isdigit_chr s
  end.

(** [c in s] for a one-character [c]. *)
Fixpoint chr_in (c : ascii) (s : string) : bool :=
  match s with
  | EmptyString => false
  | String d s' => Ascii.eqb c d || chr_in c s'
  end.

(** [s.startswith(p)] *)
Fixpoint startswith (p s : string) : bool :=
  match p, s with
  | EmptyString, _ => true
  | String _ _, EmptyString => false
  | String a p', String b s' => Ascii.eqb a b && startswith p' s'
  end.

(** [sub in s] *)
Fixpoint contains (sub s : string) : bool :=
  startswith sub s ||
  match s with
  | EmptyString => false
  | String _ s' => contains sub s'
  end.

(** [s.find(sub)]: [None] stands for -1. *)
Fixpoint find (sub s : string) : option nat :=
  if startswith sub s then Some 0%nat
  else match s with
       | EmptyString => None
       | String _ s' => S <$> find sub s'
       end.

Definition find_Z (sub s : string) : Z :=
  match find sub s with
  | Some i => Z.of_nat i
  | None => -1
  end.

(** [s.rfind(sub)] *)
Fixpoint rfind (sub s : string) : option nat :=
  match s with
  | EmptyString => if startswith sub s then Some 0%nat else None
  | String _ s' =>
      match rfind sub s' with
      | Some i => Some (S i)
      | None => if startswith sub s then Some 0%nat else None
      end
  end.

(** [s[:n]] and [s[n:]] for [n >= 0]. *)
Fixpoint take (n : nat) (s : string) : string :=
  match n, s with
  | S n', String c s' => String c (take n' s')
  | _, _ => EmptyString
  end.

Fixpoint drop (n : nat) (s : string) : string :=
  match n, s with
  | S n', String _ s' => drop n' s'
  | _, _ => s
  end.

(** [s.endswith(p)] *)
Definition endswith (p s : string) : bool :=
  (String.length p <=? String.length s)%nat
  && String.eqb (drop (String.length s - String.length p) s) p.

(** [s.lstrip(..)] and [s.rstrip(..)] over a set of characters given by
    its membership test. *)
Fixpoint lstrip_by (p : ascii -> bool) (s : string) : string :=
  match s with
  | EmptyString => EmptyString
  | String c s' => if p c then lstrip_by p s' else s
  end.

Fixpoint rstrip_by (p : ascii -> bool) (s : string) : string :=
  match s with
  | EmptyString => EmptyString
  | String c s' =>
      match rstrip_by p s' with
      | EmptyString => if p c then EmptyString else String c EmptyString
      | r => String c r
      end
  end.

Definition strip_by (p : ascii -> bool) (s : string) : string :=
  rstrip_by p (lstrip_by p s).

(** [s.strip()] *)
Definition strip (s : string) : string := strip_by isspace s.

(** [s.strip(chars)] and [s.rstrip(chars)] *)
Definition strip_chars (chars s : string) : string :=
  strip_by (fun c => chr_in c chars) s.

Definition rstrip_chars (chars s : string) : string :=
  rstrip_by (fun c => chr_in c chars) s.

Definition cons_head (c : ascii) (l : list string) : list string :=
  match l with
  | [] => [String c EmptyString]
  | h :: t => String c h :: t
  end.

(** [s.split(sep)] for a non-empty [sep]. [skip] counts the characters
    of a separator occurrence still to be consumed. *)
Fixpoint split_aux (sep : string) (skip : nat) (s : string) : list string :=
  match s with
  | EmptyString => [EmptyString]
  | String c s' =>
      match skip with
      | S k => split_aux sep k s'
      | O =>
          if startswith sep s
          then EmptyString :: split_aux sep (String.length sep - 1) s'
          else cons_head c (split_aux sep 0 s')
      end
  end.

Definition split (sep s : string) : list string := split_aux sep 0 s.

(** [s.replace(old, new)] for a non-empty [old]: occurrences are
    replaced left to right and do not overlap. *)
Fixpoint replace_aux (old new : string) (skip : nat) (s : string) : string :=
  match s with
  | EmptyString => EmptyString
  | String c s' =>
      match skip with
      | S k => replace_aux old new k s'
      | O =>
          if startswith old s
          then new +:+ replace_aux old new (String.length old - 1) s'
          else String c (replace_aux old new 0 s')
      end
  end.

Definition replace (old new s : string) : string := replace_aux old new 0 s.

(** [sep.join(l)] *)
Fixpoint join (sep : string) (l : list string) : string :=
  match l with
  | [] => EmptyString
  | [x] => x
  | x :: t => x +:+ sep +:+ join sep t
  end.

(** [str(n)] for an integer. *)
Definition str_nat (n : N) : string :=
  NilEmpty.string_of_uint (N.to_uint n).

Definition str (n : Z) : string :=
  match n with
  | Zneg p => "-" +:+ str_nat (Npos p)
  | _ => str_nat (Z.to_N n)
  end.

(** The value of a string of decimal digits, most significant first. *)
Fixpoint digits_value (acc : Z) (s : string) : Z :=
  match s with
  | EmptyString => acc
  | String c s' => digits_value (10 * acc + (Z.of_nat (code c) - 48)) s'
  end.

(** [int(s)] for a string [s] that passed [s.isdigit()]: such a string
    has no sign, blank or underscore, so [int] accepts it exactly when
    all its characters are decimal digits. *)
Definition int_of_digits (s : string) : result Z :=
  if all_chr isdecimal_chr s then Ok (digits_value 0 s) else Raise ValueError.

(** The blanks [int()] skips around a number. *)
Definition int_blank (c : ascii) : bool :=
  let n := code c in
  ((9 <=? n) && (n <=? 13) || (n =? 32) || (n =? 133) || (n =? 160))%nat.

(** Digits, with single underscores between them only. *)
Fixpoint digits_ok (after_digit : bool) (s : string) : bool :=
  match s with
  | EmptyString => after_digit
  | String c s' =>
      if isdecimal_chr c then digits_ok true s'
      else if Ascii.eqb c "_" then after_digit && digits_ok false s'
      else false
  end.

Fixpoint without_underscores (s : string) : string :=
  match s with
  | EmptyString => EmptyString
  | String c s' =>
      if Ascii.eqb c "_" then without_underscores s'
      else String c (without_underscores s')
  end.

(** [int(s)] for a string. *)
Definition int (s : string) : result Z :=
  let s := strip_by int_blank s in
  let '(negative, body) :=
    match s with
    | String "-" r => (true, r)
    | String "+" r => (false, r)
    | _ => (false, s)
    end in
  if digits_ok false body
  then Ok ((if negative then -1 else 1) * digits_value 0 (without_underscores body))
  else Raise ValueError.

(** [l[-1]] on a non-empty list, [l[-1:]] and [l[:-1]]. *)
Definition last_tok (l : list string) : string := List.last l EmptyString.
Definition last_slice (l : list string) : list string :=
  match l with
  | [] => []
  | _ => [last_tok l]
  end.

End Py.

(** ** Python floats *)

(** The readings of [time()] are binary64 numbers. *)
Module PyFloat.

Definition prec : Z := 53.
Definition emax : Z := 1024.

(** The binary64 number nearest to an integer, ties to even; an
    infinity when the integer is out of range. *)
Definition nearest (n : Z) : spec_float := binary_normalize prec emax n 0 false.

(** [float(n)] for an [int], as [float + int] converts its right
    operand: [OverflowError] when the integer is out of range. *)
Definition of_int (n : Z) : result spec_float :=
  match nearest n with
  | S754_infinity _ => Raise OverflowError
  | x => Ok x
  end.

(** [a + b] on floats *)
Definition add (a b : spec_float) : spec_float := SFadd prec emax a b.

(** [a > b] on floats *)
Definition gt (a b : spec_float) : bool := SFltb b a.

(** [a + n] for a float and an [int] *)
Definition add_int (a : spec_float) (n : Z) : result spec_float :=
  match of_int n with
  | Ok b => Ok (add a b)
  | Raise e => Raise e
  end.

End PyFloat.

(** Truth value of a string. *)
Definition nonempty (s : string) : bool :=
  match s with
  | EmptyString => false
  | _ => true
  end.

Definition nonempty_list {A} (l : list A) : bool :=
  match l with
  | [] => false
  | _ => true
  end.

(** ** Module constants *)

Definition VIMEO : string := "vimeo.com".

(** [VIMEO_URL % s] *)
Definition VIMEO_URL (s : string) : string := "https://" +:+ VIMEO +:+ "/" +:+ s.

Definition SYSTEM_LINKS : list string :=
  ["about"; "blog"; "categories"; "channels"; "cookie_policy"; "couchmode";
   "creativecommons"; "creatorservices"; "dmca"; "enhancer"; "everywhere";
   "explore"; "groups"; "help"; "jobs"; "join"; "log_in"; "love";
   "musicstore"; "ondemand"; "plus"; "privacy"; "pro"; "robots.txt";
   "search"; "site_map"; "staffpicks"; "terms"; "upload"; "videoschool"].

Definition CATEGORIES_LINKS : list string := ["albums"; "groups"; "channels"].

(** [('videos')] is a parenthesised string, not a tuple: [x in VIDEOS_LINKS]
    is a substring test. *)
Definition VIDEOS_LINKS : string := "videos".

Definition FOLDERS_LINKS : list string := ["album"; "groups"; "channels"].

Definition FILE_PREFERENCES : list string :=
  ["Original"; "HD"; "SD"; "Mobile"; "file"].

(** [x in t] for a tuple of strings. *)
Definition in_tuple (x : string) (t : list string) : bool :=
  existsb (String.eqb x) t.

(** ** The link classifier: class [URL] *)

Record URL : Type := mkURL {
  url : string;
  isSystem : bool;
  isVideo : bool;
  isAccount : bool;
  isCategory : bool;
  isVideos : bool;
  isFolder : bool;
  vID : option Z;
  account : option string;
  category : option string;
  folder : option string;
  name : option string
}.

(** What [URL(...)] is called with: a string, an integer video ID
    ([goTo(vID)]) or another [URL] (the [hasattr(url, 'url')] case). *)
Inductive url_arg : Type :=
  | ArgStr (s : string)
  | ArgInt (n : Z)
  | ArgURL (u : URL).

Definition str_of_arg (a : url_arg) : string :=
  match a with
  | ArgStr s => s
  | ArgInt n => Py.str n
  | ArgURL u => url u
  end.

Definition tok (tokens : list string) (i : nat) : string :=
  nth i tokens EmptyString.

(** Lines 148-152: the normalised text before classification. *)
Definition normalize (s : string) : string :=
  let s := if negb (Py.chr_in "/" s) then VIMEO_URL s else s in
  let u := Py.strip_chars "/" (Py.strip s) in
  let slashIndex := Z.to_nat (Py.find_Z "/" u + 1) in
  Py.take slashIndex u +:+ Py.replace "//" "/" (Py.drop slashIndex u).

(** Line 156: the path segments after the domain. *)
Definition tokenize (l : string) : list string :=
  match Py.find VIMEO l with
  | Some i => Py.split "/" (Py.drop (i + String.length VIMEO + 1) l)
  | None => []
  end.

(** Lines 157-161: the share-link collapse and the trailing "videos" drop. *)
Definition collapse (u : string) (tokens : list string) : string * list string :=
  let n := List.length tokens in
  let '(u, tokens) :=
    if ((n =? 3) || (n =? 4))%nat && Py.isdigit (Py.last_tok tokens)
    then (VIMEO_URL (Py.last_tok tokens), Py.last_slice tokens)
    else (u, tokens) in
  let tokens :=
    if (List.length tokens =? 3)%nat && String.eqb (Py.last_tok tokens) "videos"
    then removelast tokens else tokens in
  (u, tokens).

(** Lines 162-174. *)
Definition classify (u : string) (tokens : list string) : result URL :=
  let n := List.length tokens in
  let t0 := tok tokens 0 in
  let t1 := tok tokens 1 in
  let isSystem :=
    (n =? 0)%nat
    || in_tuple t0 SYSTEM_LINKS
       && ((n =? 1)%nat || negb (in_tuple t0 FOLDERS_LINKS)) in
  let isVideo := (n =? 1)%nat && Py.isdigit t0 in
  let isAccount := (n =? 1)%nat && negb isSystem && negb isVideo in
  let isCategory := (n =? 2)%nat && in_tuple t1 CATEGORIES_LINKS in
  let isVideos := (n =? 2)%nat && Py.contains t1 VIDEOS_LINKS in
  let isFolder := (n =? 2)%nat && in_tuple t0 FOLDERS_LINKS in
  bind_result
    (if isVideo then bind_result (Py.int_of_digits t0) (fun v => Ok (Some v))
     else Ok None)
    (fun vID =>
       let account :=
         if isAccount || isCategory || isVideos then Some t0 else None in
       let category := if isCategory || isVideos then Some t1 else None in
       let folder := if isFolder then Some t0 else None in
       let name :=
         if isFolder then Some t1
         else if isAccount then account
         else if isCategory || isVideos then category
         else None in
       let u :=
         if isFolder && negb (bool_decide (folder = Some "album"))
            && negb (Py.endswith "videos" u)
         then u +:+ "/videos" else u in
       Ok (mkURL u isSystem isVideo isAccount isCategory isVideos isFolder
                 vID account category folder name)).

(** [URL.__init__] on the text of its argument. *)
Definition URL_of_string (s : string) : result URL :=
  let u := normalize s in
  let l := Py.lower u in
  if negb (Py.contains VIMEO l) then Raise ValueError
  else
    let '(u, tokens) := collapse u (tokenize l) in
    classify u tokens.

Definition URL_init (a : url_arg) : result URL := URL_of_string (str_of_arg a).

(** The kind the walker dispatches on (the order of its [if]/[elif]
    chain, lines 370-419). *)
Inductive kind : Type :=
  | Video | Account | VideosListing | Category | Folder | Other.

Definition kind_of (u : URL) : kind :=
  if isVideo u then Video
  else if isAccount u then Account
  else if isVideos u then VideosListing
  else if isCategory u then Category
  else if isFolder u then Folder
  else Other.

(** Everything of a [URL] except its text. *)
Definition fields (u : URL) :=
  (isSystem u, isVideo u, isAccount u, isCategory u, isVideos u, isFolder u,
   vID u, account u, category u, folder u, name u).

(** [URL.createFile]: the name and the text of the shortcut file. *)
Definition FILE_NAME : string := "source.url".

Definition shortcut_text (u : URL) : string :=
  "[InternetShortcut]" +:+ String "010" ("URL=" +:+ tok (Py.split "/videos" (url u)) 0
  +:+ String "010" EmptyString).

(** A link in canonical form: the https address of the site followed by
    one or more path segments, each a non-empty run of characters that
    are neither a slash, nor blank, nor upper case. *)
Definition is_segment_chr (c : ascii) : bool :=
  negb (Ascii.eqb c "/") && negb (Py.isspace c) && Ascii.eqb (Py.lower_chr c) c.

Definition is_segment (s : string) : bool :=
  nonempty s && Py.all_chr is_segment_chr s.

Definition canonical (segments : list string) : string :=
  VIMEO_URL (Py.join "/" segments).

Definition segments_ok (segs : list string) : Prop :=
  segs <> [] /\ forallb is_segment segs = true.

(** The classifier is idempotent at [s]: classifying the normalised text
    of the node of [s] gives a node of the same kind with the same
    fields. *)
Definition idempotent_at (s : string) : Prop :=
  forall u, URL_of_string s = Ok u ->
    exists u', URL_of_string (url u) = Ok u'
               /\ kind_of u' = kind_of u /\ fields u' = fields u.

(** ** File names *)

(** [INVALID_FILENAME_CHARS]: the ten characters replaced by an underscore. *)
Definition INVALID_FILENAME_CHARS : string := "<>:" +:+ String "034" "/\|?*'".

Definition cleanup_chr (c : ascii) : ascii :=
  if Py.chr_in c INVALID_FILENAME_CHARS then "_"%char else c.

Definition cleanupFileName (fileName : string) : string :=
  Py.map_chr cleanup_chr fileName.

Definition is_valid_chr (c : ascii) : bool :=
  negb (Py.chr_in c INVALID_FILENAME_CHARS).

(** Line 430: the title as read from the page, [text.strip().rstrip('.')]. *)
Definition title_of_text (text : string) : string :=
  Py.rstrip_chars "." (Py.strip text).

(** Line 471: the local file name of a video. *)
Definition fileName_of (title : string) (vID : Z) (extension : string) : string :=
  cleanupFileName
    (Py.join " " ((if nonempty title then [title] else []) ++ [Py.str vID])
     +:+ "." +:+ Py.lower extension).

(** The file name as the specification words it: the sanitised title, or
    the video ID when the title is empty, then a dot and the lower-cased
    extension. *)
Definition fileName_as_specified (title : string) (vID : Z) (extension : string)
  : string :=
  (if nonempty title then cleanupFileName title else Py.str vID)
  +:+ "." +:+ Py.lower extension.

(** [os.path.join] on two components (POSIX). *)
Definition path_join (a b : string) : string :=
  if Py.startswith "/" b then b
  else if negb (nonempty a) || Py.endswith "/" a then a +:+ b
  else a +:+ "/" +:+ b.

(** ** The duplicate reconciler: [removeDuplicates] *)

(** One entry of the target directory as [listdir], [isfile] and [getsize]
    see it. *)
Record entry : Type := mkEntry {
  e_name : string;
  e_isfile : bool;
  e_size : Z
}.

(** The directory is the state: [remove] deletes one entry by name. *)
Abbreviation directory := (list entry).

Definition remove_entry (fileName : string) (d : directory) : directory :=
  filter (fun e => negb (String.eqb (e_name e) fileName)) d.

(** A Python [dict] with string keys, in insertion order. *)
Fixpoint dict_get {V} (k : string) (d : list (string * V)) : option V :=
  match d with
  | [] => None
  | (k', v) :: d' => if String.eqb k k' then Some v else dict_get k d'
  end.

Fixpoint dict_set {V} (k : string) (v : V) (d : list (string * V)) : list (string * V) :=
  match d with
  | [] => [(k, v)]
  | (k', v') :: d' =>
      if String.eqb k k' then (k, v) :: d' else (k', v') :: dict_set k v d'
  end.

(** [fileName[:fileName.rfind('.')]] *)
Definition keyName_of (fileName : string) : string :=
  match Py.rfind "." fileName with
  | Some i => Py.take i fileName
  | None => Py.take (String.length fileName - 1) fileName
  end.

(** Lines 599-607: the [files] dictionary, key to the entries sharing it. *)
Fixpoint group_files (names : list entry) (files : list (string * list entry))
  : list (string * list entry) :=
  match names with
  | [] => files
  | e :: rest =>
      if negb (Py.chr_in "." (e_name e)) then group_files rest files
      else if negb (e_isfile e) then group_files rest files
      else
        let keyName := keyName_of (e_name e) in
        group_files rest
          (dict_set keyName (default [] (dict_get keyName files) ++ [e]) files)
  end.

(** [sorted(l, key = size)]: the stable sort by ascending size. *)
Fixpoint insert_by_size (e : entry) (l : list entry) : list entry :=
  match l with
  | [] => [e]
  | y :: l' => if e_size e <=? e_size y then e :: l else y :: insert_by_size e l'
  end.

Definition sorted_by_size (l : list entry) : list entry :=
  fold_right insert_by_size [] l.

(** Lines 610-614: the files of one group that are removed. *)
Definition doomed (fullNames : list entry) : list entry :=
  match fullNames with
  | [_] => []
  | _ => removelast (sorted_by_size fullNames)
  end.

(** The names passed to [remove], in order. *)
Definition removed_names (d : directory) : list string :=
  flat_map (fun kv => map e_name (doomed (snd kv))) (group_files d []).

(** Lines 608-614: the listing once every doomed file is removed. *)
Definition reconciled (d : directory) : directory :=
  fold_left (fun d n => remove_entry n d) (removed_names d) d.

(** [os.listdir(path)] over the directories of the file system, keyed by
    their path: the empty path names no directory, and a path that names
    none raises. *)
Definition listdir (path : string) (fs : gmap string directory)
  : result directory :=
  if nonempty path then
    match fs !! path with
    | Some d => Ok d
    | None => Raise FileNotFoundError
    end
  else Raise FileNotFoundError.

(** Lines 279-280 with the default of line 206: the target directory for
    the value of [-d], [None] when the option is not given. *)
Definition targetDirectory_of (value : option string) : string :=
  match value with
  | Some v => if String.eqb v "." then EmptyString else v
  | None => EmptyString
  end.

(** [removeDuplicates]: the file system after it, and whether it
    returned. The entries of the listing are the files
    [join(targetDirectory, fileName)], which [remove] deletes. *)
Definition removeDuplicates (targetDirectory : string)
    (fs : gmap string directory) : gmap string directory * result unit :=
  match listdir targetDirectory fs with
  | Ok d => (<[targetDirectory := reconciled d]> fs, Ok tt)
  | Raise e => (fs, Raise e)
  end.

(** The files the reconciler looks at: the regular files with a dot in
    their name. *)
Definition considered (e : entry) : bool :=
  Py.chr_in "." (e_name e) && e_isfile e.

(** The group of a key: the considered files with that key, in the order
    of the listing. *)
Definition group_of (keyName : string) (d : directory) : list entry :=
  filter (fun e => considered e && String.eqb (keyName_of (e_name e)) keyName) d.

(** The grouping key as the specification words it: the text before the
    first dot. *)
Definition stem_before_first_dot (fileName : string) : string :=
  match Py.find "." fileName with
  | Some i => Py.take i fileName
  | None => fileName
  end.

(** Ascending order of size. *)
Definition by_size (x y : entry) : Prop := e_size x <= e_size y.

(** The reconciler as the specification words it: of two considered
    files of the target directory with the same text before their first
    dot, at most one is left. *)
Definition reconciles_by_first_dot (targetDirectory : string)
    (fs : gmap string directory) : Prop :=
  forall d d',
    fs !! targetDirectory = Some d ->
    (removeDuplicates targetDirectory fs).1 !! targetDirectory = Some d' ->
    forall e1 e2,
      e1 ∈ d -> e2 ∈ d -> e1 <> e2 ->
      considered e1 = true -> considered e2 = true ->
      stem_before_first_dot (e_name e1) = stem_before_first_dot (e_name e2) ->
      ~ (e1 ∈ d' /\ e2 ∈ d').

(** ** Object identity of [URL] instances *)

(** [URL] defines [__hash__] and [__cmp__]. Python 3 never calls
    [__cmp__]; without [__eq__], [==] is [object.__eq__], which compares
    identities. An instance is therefore its value together with the
    identity it was allocated at. *)
Record URLobj : Type := mkObj {
  oid : nat;
  val : URL
}.

(** [a == b] *)
Definition URL_eq (a b : URLobj) : bool := Nat.eqb (oid a) (oid b).

(** [URL.__hash__]: the hash of the text, for a given string hash. *)
Definition URL_hash (hash : string -> Z) (a : URLobj) : Z := hash (url (val a)).

(** [URL.__cmp__] (dead code under Python 3). *)
Definition URL_cmp (a b : URLobj) : Z :=
  match String.compare (url (val a)) (url (val b)) with
  | Gt => 1
  | Lt => -1
  | Eq => 0
  end.

(** [set(items)]: one member per class of [==]. *)
Fixpoint set_of (items : list URLobj) : list URLobj :=
  match items with
  | [] => []
  | x :: rest => if existsb (URL_eq x) rest then set_of rest else x :: set_of rest
  end.

(** [assert len(items) == len(set(items))] *)
Definition assert_unique (items : list URLobj) : result unit :=
  if (List.length items =? List.length (set_of items))%nat then Ok tt
  else Raise AssertionError.

(** ** The outside world *)

(** A link of the download panel: its text and its [download] and [href]
    attributes. *)
Record PanelLink : Type := mkPanelLink {
  l_text : string;
  l_download : string;
  l_href : string
}.

(** An [option] element of the language selector. *)
Record LangOption : Type := mkLangOption {
  o_text : string;
  o_value : string;
  o_selected : bool
}.

(** How [curl.perform()] goes: the clock readings and byte counts of the
    progress callbacks it makes, and how it ends when no callback aborts
    it. *)
Inductive transfer_end : Type :=
  | Completed
  | Failed
  | Interrupted.

Record Transfer : Type := mkTransfer {
  callbacks : list (spec_float * Z);
  ending : transfer_end
}.

(** The operations the crawler performs on the browser session, the
    network and the file system, over an opaque state [W]. [None] is
    an operation that raised ([NoSuchElementException] for the element
    look-ups, any exception for the others). Elements are named by the
    selector they are looked up with. [perform href path w] is how the
    transfer of [href] to [path] goes from [w], and [transferred href path
    k w] is the world once it ended after [k] progress callbacks.
    [capitalize] is [str.capitalize], whose results may leave the range of
    code points modelled here. *)
Record World (W : Type) : Type := mkWorld {
  (* WebDriver *)
  driver_get : string -> W -> W;
  current_url : W -> string;
  elem_present : string -> W -> bool;
  elem_text : string -> W -> option string;
  elem_attr : string -> string -> W -> option (option string);
  elems_href : string -> W -> option (list string);
  elem_click : string -> W -> option W;
  panel_link : string -> W -> option PanelLink;
  user_agent : W -> string;
  get_cookies : W -> list (string * string);
  languages : W -> list LangOption;
  option_click : nat -> W -> W;
  (* requests, pycurl, time *)
  content_length : string -> string -> list (string * string) -> W -> option Z;
  clock : W -> spec_float;
  perform : string -> string -> W -> Transfer;
  transferred : string -> string -> nat -> W -> W;
  (* os, os.path *)
  isdir : string -> W -> bool;
  makedirs : string -> W -> W;
  write_text : string -> string -> W -> W;
  getsize : string -> W -> option Z;
  open_wb : string -> W -> W;
  lexists : string -> W -> bool;
  os_remove : string -> W -> option W;
  os_link : bool -> string -> string -> W -> option W;
  (* str *)
  capitalize : string -> string
}.

Arguments driver_get {W} _. Arguments current_url {W} _.
Arguments elem_present {W} _.
Arguments elem_text {W} _. Arguments elem_attr {W} _.
Arguments elems_href {W} _. Arguments elem_click {W} _.
Arguments panel_link {W} _. Arguments user_agent {W} _.
Arguments get_cookies {W} _. Arguments languages {W} _.
Arguments option_click {W} _. Arguments content_length {W} _.
Arguments clock {W} _. Arguments perform {W} _.
Arguments transferred {W} _. Arguments isdir {W} _.
Arguments makedirs {W} _. Arguments write_text {W} _.
Arguments getsize {W} _. Arguments open_wb {W} _.
Arguments lexists {W} _. Arguments os_remove {W} _.
Arguments os_link {W} _. Arguments capitalize {W} _.

(** What the crawler did to the world, in order. *)
Inductive event : Type :=
  | EvGet (address : string)
  | EvClick (css : string)
  | EvProbe (href : string)
  | EvMakedirs (path : string)
  | EvWriteText (path text : string)
  | EvOpenWrite (path : string)
  | EvPerform (href path : string)
  | EvRemove (path : string)
  | EvLink (hard : bool) (src dst : string).

(** ** Configuration and session state *)

(** The options of [VimeoCrawler.__init__] the crawl reads; [symlink] is
    whether [os.symlink] could be imported. *)
Record Config : Type := mkConfig {
  targetDirectory : string;
  retryCount : nat;
  maxItems : option nat;
  timeout : Z;
  doDownload : bool;
  foldersNeeded : bool;
  getFileSizes : bool;
  useHardLinks : bool;
  symlink : bool
}.

(** Lines 264-269: the value of [-r], a non-negative integer. *)
Definition parse_retries (value : string) : result nat :=
  match Py.int value with
  | Ok n => if n <? 0 then Raise ValueError else Ok (Z.to_nat n)
  | Raise _ => Raise ValueError
  end.

(** The fields [run] initialises and the crawl mutates. [folders] keeps
    each member set with its directory; a membership target is the index
    of its folder, so that adding to the target is adding to the
    registered set. *)
Record Crawler (W : Type) : Type := mkCrawler {
  world : W;
  vIDs : list Z;
  folders : list (string * gset Z);
  errors : Z;
  doCreateFolders : bool;
  startURL : option URL;
  totalFileSize : Z;
  setLanguage : option string;
  next_oid : nat;
  trace : list event
}.

Arguments mkCrawler {W}. Arguments world {W}. Arguments vIDs {W}.
Arguments folders {W}. Arguments errors {W}. Arguments doCreateFolders {W}.
Arguments startURL {W}. Arguments totalFileSize {W}.
Arguments setLanguage {W}. Arguments next_oid {W}. Arguments trace {W}.

Section Session.

Context {W : Type} (os : World W) (cfg : Config).

Definition set_world (w : W) (c : Crawler W) : Crawler W :=
  mkCrawler w (vIDs c) (folders c) (errors c) (doCreateFolders c)
    (startURL c) (totalFileSize c) (setLanguage c) (next_oid c) (trace c).

Definition set_vIDs (l : list Z) (c : Crawler W) : Crawler W :=
  mkCrawler (world c) l (folders c) (errors c) (doCreateFolders c)
    (startURL c) (totalFileSize c) (setLanguage c) (next_oid c) (trace c).

Definition set_folders (f : list (string * gset Z)) (c : Crawler W) : Crawler W :=
  mkCrawler (world c) (vIDs c) f (errors c) (doCreateFolders c)
    (startURL c) (totalFileSize c) (setLanguage c) (next_oid c) (trace c).

Definition set_errors (n : Z) (c : Crawler W) : Crawler W :=
  mkCrawler (world c) (vIDs c) (folders c) n (doCreateFolders c)
    (startURL c) (totalFileSize c) (setLanguage c) (next_oid c) (trace c).

Definition set_doCreateFolders (b : bool) (c : Crawler W) : Crawler W :=
  mkCrawler (world c) (vIDs c) (folders c) (errors c) b
    (startURL c) (totalFileSize c) (setLanguage c) (next_oid c) (trace c).

Definition set_startURL (u : option URL) (c : Crawler W) : Crawler W :=
  mkCrawler (world c) (vIDs c) (folders c) (errors c) (doCreateFolders c)
    u (totalFileSize c) (setLanguage c) (next_oid c) (trace c).

Definition set_totalFileSize (n : Z) (c : Crawler W) : Crawler W :=
  mkCrawler (world c) (vIDs c) (folders c) (errors c) (doCreateFolders c)
    (startURL c) n (setLanguage c) (next_oid c) (trace c).

Definition set_setLanguage (l : option string) (c : Crawler W) : Crawler W :=
  mkCrawler (world c) (vIDs c) (folders c) (errors c) (doCreateFolders c)
    (startURL c) (totalFileSize c) l (next_oid c) (trace c).

Definition set_next_oid (n : nat) (c : Crawler W) : Crawler W :=
  mkCrawler (world c) (vIDs c) (folders c) (errors c) (doCreateFolders c)
    (startURL c) (totalFileSize c) (setLanguage c) n (trace c).

Definition set_trace (t : list event) (c : Crawler W) : Crawler W :=
  mkCrawler (world c) (vIDs c) (folders c) (errors c) (doCreateFolders c)
    (startURL c) (totalFileSize c) (setLanguage c) (next_oid c) t.

(** A method of the crawler: it reads and updates the session and
    returns or raises. The session survives a raise, as the fields of
    [self] do. *)
Definition M (A : Type) : Type := Crawler W -> Crawler W * result A.

Definition ret {A} (a : A) : M A := fun c => (c, Ok a).
Definition raise {A} (e : exn) : M A := fun c => (c, Raise e).

Definition bind {A B} (m : M A) (k : A -> M B) : M B :=
  fun c =>
    match m c with
    | (c', Ok a) => k a c'
    | (c', Raise e) => (c', Raise e)
    end.

Definition lift {A} (r : result A) : M A := fun c => (c, r).
Definition reads {A} (f : Crawler W -> A) : M A := fun c => (c, Ok (f c)).
Definition update (f : Crawler W -> Crawler W) : M unit := fun c => (f c, Ok tt).

(** An operation on the world, recorded in the trace. *)
Definition act (ev : event) (f : W -> W) : M unit :=
  update (fun c => set_trace (trace c ++ [ev]) (set_world (f (world c)) c)).

Definition add_error : M unit := update (fun c => set_errors (errors c + 1) c).

Fixpoint for_each {A} (l : list A) (body : A -> M unit) : M unit :=
  match l with
  | [] => ret tt
  | x :: l' => bind (body x) (fun _ => for_each l' body)
  end.

End Session.

Arguments ret {W A}. Arguments raise {W A}. Arguments bind {W A B}.
Arguments lift {W A}. Arguments reads {W A}. Arguments update {W}.
Arguments act {W}. Arguments add_error {W}. Arguments for_each {W A}.

Notation "x <- m ;; k" := (bind m (fun x => k))
  (at level 100, m at next level, right associativity).
Notation "m ;;; k" := (bind m (fun _ => k))
  (at level 100, right associativity).

(** ** The site walker *)

Section Walker.

Context {W : Type} (os : World W) (cfg : Config).

#[local] Abbreviation M := (@M W).

(** [URL(arg)]: classify and allocate a new instance. *)
Definition URL_new (a : url_arg) : M URLobj :=
  u <- lift (URL_init a) ;;
  n <- reads next_oid ;;
  update (set_next_oid (S n)) ;;;
  ret (mkObj n u).

(** [createDir] *)
Definition createDir (dirName : option string) : M string :=
  let d := match dirName with
           | Some n => if nonempty n then path_join (targetDirectory cfg) n
                       else targetDirectory cfg
           | None => targetDirectory cfg
           end in
  w <- reads world ;;
  (if nonempty d && negb (isdir os d w)
   then act (EvMakedirs d) (makedirs os d) else ret tt) ;;;
  ret d.

(** [URL.createFile] *)
Definition createFile (u : URL) (directory : string) : M unit :=
  let path := path_join directory FILE_NAME in
  act (EvWriteText path (shortcut_text u)) (write_text os path (shortcut_text u)).

(** [goTo] *)
Definition goTo (a : url_arg) : M unit :=
  u <- URL_new a ;;
  act (EvGet (url (val u))) (driver_get os (url (val u))).

(** [getElement(css).click()]: [false] when the element is absent. *)
Definition try_click (css : string) : M bool :=
  w <- reads world ;;
  match elem_click os css w with
  | Some w' => act (EvClick css) (fun _ => w') ;;; ret true
  | None => ret false
  end.

Fixpoint URL_new_all (links : list string) : M (list URLobj) :=
  match links with
  | [] => ret []
  | link :: rest =>
      u <- URL_new (ArgStr link) ;;
      us <- URL_new_all rest ;;
      ret (u :: us)
  end.

(** [l[:n]] where [n] may be [None]. *)
Definition slice_to {A} (n : option nat) (l : list A) : list A :=
  match n with
  | Some k => firstn k l
  | None => l
  end.

(** [getItemsFromPage] *)
Definition getItemsFromPage : M (list URLobj) :=
  w <- reads world ;;
  items <- match elems_href os "#browse_content .browse a" w with
           | Some links =>
               us <- URL_new_all
                       (filter (fun link => Py.contains VIMEO link
                                            && negb (Py.endswith "settings" link))
                               links) ;;
               ret (slice_to (maxItems cfg) us)
           | None => add_error ;;; ret []
           end ;;
  lift (assert_unique items) ;;;
  ret items.

(** The loop of [getItemsFromFolder]: [range(maxItems)] when [bounded],
    [count()] otherwise. *)
Fixpoint pages (budget : nat) (bounded : bool) (items : list URLobj)
  : M (list URLobj) :=
  match budget with
  | O => if bounded then ret items else raise OutOfFuel
  | S budget' =>
      page <- getItemsFromPage ;;
      next <- try_click ".pagination a[rel=next]" ;;
      if next then pages budget' bounded (items ++ page)
      else ret (items ++ page)
  end.

(** [getItemsFromFolder] *)
Definition getItemsFromFolder (fuel : nat) : M (list URLobj) :=
  items <- match maxItems cfg with
           | Some m => pages m true []
           | None => pages fuel false []
           end ;;
  lift (assert_unique items) ;;;
  ret items.

(** Truth value of a title that may be [None]. *)
Definition truthy (t : option string) : bool :=
  match t with
  | Some s => nonempty s
  | None => false
  end.

(** Lines 391-402: the chain of look-ups for a folder title; [None] when
    all four raised. *)
Definition read_title (w : W) : option (option string) :=
  match elem_text os "#page_header h1 a" w with
  | Some t => Some (Some t)
  | None =>
      match elem_text os "#page_header h1" w with
      | Some t => Some (Some t)
      | None =>
          match elem_attr os "#group_header h1 a" "title" w with
          | Some t => Some t
          | None => Some <$> elem_text os "#group_header h1 a" w
          end
      end
  end.

(** Lines 370-374: the Video step. *)
Definition visit_video (v : Z) (target : option nat) : M unit :=
  update (fun c => if bool_decide (v ∈ vIDs c) then c
                   else set_vIDs (vIDs c ++ [v]) c) ;;;
  match target with
  | Some i =>
      update (fun c => set_folders
                         (alter (fun f => (fst f, {[v]} ∪ snd f)) i (folders c)) c)
  | None => ret tt
  end.

(** Lines 409-414: the folder directory, its shortcut, and the new
    membership target. *)
Definition open_folder (u : URL) (title : string) (target : option nat)
  : M (option nat) :=
  create <- reads doCreateFolders ;;
  if create then
    dirName <- createDir (Some (cleanupFileName
                                  (Py.rstrip_chars "." (Py.strip title)))) ;;
    createFile u dirName ;;;
    if symlink cfg then
      n <- reads (fun c => List.length (folders c)) ;;
      update (fun c => set_folders (folders c ++ [(dirName, ∅)]) c) ;;;
      ret (Some n)
    else ret target
  else ret target.

(** Lines 389-416: the attempts of the Folder branch; [k] attempts are
    left, so that the attempt number is [retryCount + 1 - k]. *)
Fixpoint folder_attempts (fuel : nat) (u : URL) (k : nat)
    (title : option string) (target : option nat)
  : M (list url_arg * option nat) :=
  match k with
  | O => ret ([], target)
  | S k' =>
      let i := (retryCount cfg - k')%nat in
      goTo (ArgURL u) ;;;
      w <- reads world ;;
      title <- match read_title w with
               | Some t => ret t
               | None =>
                   (if (retryCount cfg <=? i)%nat then add_error else ret tt) ;;;
                   ret title
               end ;;
      if truthy title then
        target <- open_folder u (default EmptyString title) target ;;
        items <- getItemsFromFolder fuel ;;
        ret (map (fun o => ArgURL (val o)) items, target)
      else folder_attempts fuel u k' title target
  end.

(** Truth value of the argument of [getItemsFromURL]. *)
Definition arg_truthy (a : url_arg) : bool :=
  match a with
  | ArgStr s => nonempty s
  | ArgInt n => negb (n =? 0)
  | ArgURL _ => true
  end.

(** [getItemsFromURL]; [fuel] bounds the depth of the recursion and the
    unbounded page loops. *)
Fixpoint getItemsFromURL (fuel : nat) (a : option url_arg) (target : option nat)
  : M unit :=
  match fuel with
  | O => raise OutOfFuel
  | S fuel' =>
      w <- reads world ;;
      obj <- URL_new (match a with
                      | Some x => if arg_truthy x then x
                                  else ArgStr (current_url os w)
                      | None => ArgStr (current_url os w)
                      end) ;;
      let u := val obj in
      start <- reads startURL ;;
      match start with
      | None => update (set_startURL (Some u)) ;;;
                createFile u (targetDirectory cfg)
      | Some _ => ret tt
      end ;;;
      r <- (if isVideo u then
              match vID u with
              | Some v => visit_video v target
              | None => ret tt
              end ;;;
              ret ([], target)
            else if isAccount u then
              goTo (ArgStr (url u +:+ "/videos")) ;;;
              items <- getItemsFromFolder fuel' ;;
              update (set_doCreateFolders (foldersNeeded cfg)) ;;;
              ret (map (fun o => ArgURL (val o)) items
                     ++ [ArgStr (url u +:+ "/channels");
                         ArgStr (url u +:+ "/albums")], target)
            else if isVideos u then
              goTo (ArgURL u) ;;;
              items <- getItemsFromFolder fuel' ;;
              ret (map (fun o => ArgURL (val o)) items, target)
            else if isCategory u then
              goTo (ArgURL u) ;;;
              items <- getItemsFromFolder fuel' ;;
              update (set_doCreateFolders (foldersNeeded cfg)) ;;;
              ret (map (fun o => ArgURL (val o)) items, target)
            else if isFolder u then
              folder_attempts fuel' u (retryCount cfg + 1) None target
            else
              goTo (ArgURL u) ;;;
              items <- getItemsFromPage ;;
              ret (map (fun o => ArgURL (val o)) items, target)) ;;
      for_each (fst r) (fun item => getItemsFromURL fuel' (Some item) (snd r))
  end.

(** The fields as [run] sets them before the crawl. *)
Definition new_session (w : W) (start : option URL) (language : option string)
  : Crawler W :=
  mkCrawler w [] [] 0 false start 0 language 0 [].

(** Line 631: the crawl [run] starts. *)
Definition crawl (fuel : nat) (w : W) (start : option URL)
    (language : option string) : Crawler W * result unit :=
  getItemsFromURL fuel (ArgURL <$> start) None (new_session w start language).

End Walker.

(** The registry invariant of a session: no video ID is listed twice, and
    every member of a folder is a listed video. *)
Definition registry_ok {W} (c : Crawler W) : Prop :=
  NoDup (vIDs c)
  /\ Forall (fun f : string * gset Z => forall v, v ∈ f.2 -> v ∈ vIDs c) (folders c).

(** One session state comes after another: the invariant is kept, the
    video list only grew at its end, and no folder was dropped (so that a
    membership target stays the index of a registered folder). *)
Definition advances {W} (c c' : Crawler W) : Prop :=
  (registry_ok c -> registry_ok c')
  /\ vIDs c `prefix_of` vIDs c'
  /\ (List.length (folders c) <= List.length (folders c'))%nat.

(** A membership target is the index of a registered folder. *)
Definition target_ok {W} (target : option nat) (c : Crawler W) : Prop :=
  forall i, target = Some i -> (i < List.length (folders c))%nat.

(** A method that only ever advances the session, whether it returns or
    raises. *)
Definition keeps {W A} (m : M A) : Prop :=
  forall (c c' : Crawler W) r, m c = (c', r) -> advances c c'.

(** ** The progress indicator *)

Module ProgressIndicator.

(** [QUANTUM]: 10 megabytes. *)
Definition QUANTUM : Z := 10 * 1024 * 1024.

(** [ACTION = r'--\\||//']: eight characters. *)
Definition ACTION : string := "--\\||//".

Record t : Type := mk {
  timeout : Z;
  started : bool;
  totalRead : Z;
  lastData : spec_float;
  count : Z;
  action : nat;
  printed : list string
}.

(** [s * n] *)
Definition repeat_str (s : string) (n : Z) : string :=
  Py.join EmptyString (repeat s (Z.to_nat n)).

(** [progress] *)
Definition progress (s suffix : string) (p : t) : t :=
  let a := ((action p + 1) mod String.length ACTION)%nat in
  let tail := if nonempty suffix then suffix +:+ String "010" EmptyString
              else Py.take 1 (Py.drop a ACTION) in
  mk (timeout p) (started p) (totalRead p) (lastData p) (count p) a
     (printed p ++ [String "008" (s +:+ tail)]).

(** [__init__]; [now] is what [time()] returns. *)
Definition init (timeout : Z) (now : spec_float) : t :=
  progress "Dowloading: " EmptyString
    (mk timeout false 0 now 0 (String.length ACTION - 1) []).

(** Lines 530-533: the count of quanta and the output of a callback
    that did not raise. *)
Definition show (total : Z) (p : t) : t :=
  let oldCount := count p in
  let newCount := total / QUANTUM + 1 in
  let p := mk (timeout p) (started p) (totalRead p) (lastData p) newCount
              (action p) (printed p) in
  let p := progress (repeat_str (if started p then "=" else "+")
                       (Z.max 0 (newCount - oldCount))) EmptyString p in
  mk (timeout p) true (totalRead p) (lastData p) (count p) (action p)
     (printed p).

(** [update(_length, totalRead)]; [now] is what [time()] returns in
    the branch taken, each of which calls it once. The sum
    [self.lastData + self.timeout] is a float sum, the timeout being
    converted first. [total] is the count of bytes read so far, which
    the transfer passes as a float of integral value. *)
Definition update (now : spec_float) (total : Z) (p : t) : result t :=
  if total <=? totalRead p then
    match PyFloat.add_int (lastData p) (timeout p) with
    | Ok deadline =>
        if PyFloat.gt now deadline then Raise CurlError
        else Ok (show total p)
    | Raise e => Raise e
    end
  else
    Ok (show total (mk (timeout p) (started p) total now (count p) (action p)
                       (printed p))).

(** [end] *)
Definition finish (p : t) : t := progress "OK" EmptyString p.

(** The callbacks of one transfer, in order, until one raises: the
    indicator, the number of callbacks that returned, and whether the
    last one raised. *)
Fixpoint feed (cbs : list (spec_float * Z)) (delivered : nat) (p : t)
  : t * nat * bool :=
  match cbs with
  | [] => (p, delivered, false)
  | (now, total) :: rest =>
      match update now total p with
      | Ok p' => feed rest (S delivered) p'
      | Raise _ => (p, delivered, true)
      end
  end.

(** The last byte-progress event of a sequence of callbacks, as the
    specification words it: the clock reading and the byte count of the
    last callback that reported more bytes than any before it, and
    [(t0, n0)] when there is none. *)
Fixpoint last_progress (t0 : spec_float) (n0 : Z)
    (cbs : list (spec_float * Z)) : spec_float * Z :=
  match cbs with
  | [] => (t0, n0)
  | (now, total) :: rest =>
      if n0 <? total then last_progress now total rest
      else last_progress t0 n0 rest
  end.

End ProgressIndicator.

(** ** The download engine: [processVideo] *)

Section Download.

Context {W : Type} (os : World W) (cfg : Config).

#[local] Abbreviation M := (@M W).

(** The local variables of one attempt that outlive it. *)
Record attempt : Type := mkAttempt {
  a_fileName : string;
  a_break : bool
}.

(** Lines 427-439: the page of the video, its title and its download
    panel; [k] look-ups are left. *)
Fixpoint acquire (vID : Z) (k : nat) (title : string) : M (string * bool) :=
  match k with
  | O => ret (title, false)
  | S k' =>
      let i := (retryCount cfg - k')%nat in
      let absent (title : string) : M (string * bool) :=
        if (retryCount cfg <=? i)%nat then add_error ;;; ret (title, false)
        else acquire vID k' title in
      goTo os (ArgInt vID) ;;;
      w <- reads world ;;
      match elem_text os "h1[itemprop=name]" w with
      | None => absent title
      | Some text =>
          let title := title_of_text text in
          clicked <- try_click os ".iconify_down_b" ;;
          if clicked then
            w <- reads world ;;
            if elem_present os "#download" w then ret (title, true)
            else absent title
          else absent title
      end
  end.

(** Lines 443-448: the first preference the panel has a link for. *)
Fixpoint choose (preferences : list string) (w : W) : option PanelLink :=
  match preferences with
  | [] => None
  | preference :: rest =>
      match panel_link os preference w with
      | Some l => Some l
      | None => choose rest w
      end
  end.

(** Lines 455-463: the size of the remote file, when it can be had. *)
Definition probe (href userAgent : string) (cookies : list (string * string))
  : M (option Z) :=
  if getFileSizes cfg then
    w <- reads world ;;
    update (fun c => set_trace (trace c ++ [EvProbe href]) c) ;;;
    match content_length os href userAgent cookies w with
    | Some n =>
        update (fun c => set_totalFileSize (totalFileSize c + n) c) ;;;
        ret (Some n)
    | None => ret None
    end
  else ret None.

(** Lines 473-492: the language preference. *)
Definition starts_capitalized (language text : string) : bool :=
  Py.startswith language (capitalize os text).

Definition indexes_where {A} (p : A -> bool) (l : list A) : list nat :=
  map fst (filter (fun ix => p (snd ix)) (combine (seq 0 (List.length l)) l)).

Definition set_language : M unit :=
  language <- reads setLanguage ;;
  match language with
  | Some lang =>
      if nonempty lang then
        opened <- try_click os "#change_settings" ;;
        if opened then
          w <- reads world ;;
          let options := languages os w in
          let first_or_none :=
            match options with
            | [] => true
            | first :: _ => o_selected first || negb (existsb o_selected options)
            end in
          if first_or_none then
            let ls := indexes_where
                        (fun o => starts_capitalized lang (o_text o)) options in
            let ls := if (List.length ls =? 1)%nat then ls
                      else indexes_where
                             (fun o => starts_capitalized lang (o_value o))
                             options in
            match ls with
            | [ix] =>
                act (EvClick "select[name=language] option") (option_click os ix) ;;;
                _ <- try_click os "#settings_form input[type=submit]" ;;
                ret tt
            | _ => update (set_setLanguage None)
            end
          else ret tt
        else ret tt
      else ret tt
  | None => ret tt
  end.

(** The largest value [curl.setopt] takes for an integer option: that
    of a C [long], here of 64 bits. *)
Definition LONG_MAX : Z := 2 ^ 63 - 1.

(** Lines 505-559: the transfer itself; the result is [downloadOK].
    [curl.setopt(curl.TIMEOUT, self.timeout)] raises [OverflowError]
    for a timeout that is no C [long]; it is called before the file is
    opened and outside the [try]. A callback that raises aborts the
    transfer, and [perform] then raises [curlError]. *)
Definition transfer (href userAgent : string) (cookies : list (string * string))
    (targetFileName : string) : M bool :=
  w <- reads world ;;
  let indicator := ProgressIndicator.init (timeout cfg) (clock os w) in
  if LONG_MAX <? timeout cfg then raise OverflowError
  else
    act (EvOpenWrite targetFileName) (open_wb os targetFileName) ;;;
    w <- reads world ;;
    let script := perform os href targetFileName w in
    let '(_, delivered, stalled) :=
      ProgressIndicator.feed (callbacks script) 0 indicator in
    act (EvPerform href targetFileName)
        (transferred os href targetFileName delivered) ;;;
    if stalled then add_error ;;; ret false
    else match ending script with
         | Completed => ret true
         | Failed => add_error ;;; ret false
         | Interrupted => add_error ;;; ret false
         end.

(** Lines 560-574: the size of the file after a transfer that went
    through. *)
Definition validate (linkSize : option Z) (targetFileName : string) : M bool :=
  w <- reads world ;;
  match getsize os targetFileName w with
  | None => add_error ;;; ret false
  | Some localSize =>
      if localSize =? 0 then add_error ;;; ret false
      else match linkSize with
           | Some size =>
               if size =? 0 then ret true
               else if size <? localSize then add_error ;;; ret false
               else if localSize <? size then add_error ;;; ret false
               else ret true
           | None => ret true
           end
  end.

(** Lines 494-503: the file already there against the expected size;
    the result is [downloadOK] and [downloadSkip]. *)
Definition check_local (linkSize : option Z) (targetFileName : string)
  : M (bool * bool) :=
  match linkSize with
  | Some size =>
      if size =? 0 then ret (false, false)
      else
        w <- reads world ;;
        match getsize os targetFileName w with
        | Some localSize =>
            if localSize =? size then ret (true, false)
            else if negb (localSize =? 0) && (size <? localSize)
                 then add_error ;;; ret (false, true)
                 else ret (false, false)
        | None => ret (false, false)
        end
  | None => ret (false, false)
  end.

(** Lines 493-580: what is done with the chosen link; the result is
    whether the attempt loop is left. *)
Definition download (link : option (string * string * list (string * string)))
    (linkSize : option Z) (targetFileName : string) : M bool :=
  match link with
  | Some (href, userAgent, cookies) =>
      if nonempty href then
        checked <- check_local linkSize targetFileName ;;
        let '(downloadOK, downloadSkip) := checked in
        downloadOK <-
          (if doDownload cfg && negb downloadOK then
             ok <- transfer href userAgent cookies targetFileName ;;
             if ok then validate linkSize targetFileName else ret false
           else ret downloadOK) ;;
        if downloadOK then ret true
        else if downloadSkip || negb (doDownload cfg) then ret true
        else ret false
      else ret false
  | None => ret false
  end.

(** Lines 425-580: one pass of the attempt loop. *)
Definition attempt_once (vID : Z) : M attempt :=
  acquired <- acquire vID (retryCount cfg + 1) EmptyString ;;
  let '(title, found) := acquired in
  w <- reads world ;;
  let link := if found then choose FILE_PREFERENCES w else None in
  parsed <- match link with
            | Some l =>
                let userAgent := user_agent os w in
                let cookies := get_cookies os w in
                let extension := Py.last_tok (Py.split "." (l_download l)) in
                linkSize <- probe (l_href l) userAgent cookies ;;
                ret (extension, Some (l_href l, userAgent, cookies), linkSize)
            | None => ret ("NONE", None, None)
            end ;;
  let '(extension, link, linkSize) := parsed in
  let fileName := fileName_of title vID extension in
  let targetFileName := path_join (targetDirectory cfg) fileName in
  set_language ;;;
  leave <- download link linkSize targetFileName ;;
  ret (mkAttempt fileName leave).

(** The attempt loop, [range(retryCount)]: the value of the local
    variable [fileName] after it, [None] while it is unbound. *)
Fixpoint attempts (vID : Z) (k : nat) (fileName : option string)
  : M (option string) :=
  match k with
  | O => ret fileName
  | S k' =>
      a <- attempt_once vID ;;
      if a_break a then ret (Some (a_fileName a))
      else attempts vID k' (Some (a_fileName a))
  end.

(** Lines 584-595: the links into the folders of the video. *)
Definition link_into (fileName : option string) (dirName : string) : M unit :=
  match fileName with
  | None => raise UnboundLocalError
  | Some fileName =>
      let linkFileName := path_join dirName fileName in
      w <- reads world ;;
      (if lexists os linkFileName w then
         match os_remove os linkFileName w with
         | Some w' => act (EvRemove linkFileName) (fun _ => w')
         | None => ret tt
         end
       else ret tt) ;;;
      w <- reads world ;;
      match os_link os (useHardLinks cfg) (path_join ".." fileName) linkFileName w with
      | Some w' =>
          act (EvLink (useHardLinks cfg) (path_join ".." fileName) linkFileName)
              (fun _ => w')
      | None => add_error
      end
  end.

(** [processVideo] *)
Definition processVideo (vID : Z) (number : nat) : M unit :=
  fileName <- attempts vID (retryCount cfg) None ;;
  dirs <- reads (fun c => map fst (filter (fun f => bool_decide (vID ∈ f.2))
                                          (folders c))) ;;
  for_each dirs (link_into fileName).

End Download.

(** ** A scripted world

    A small site and disk to run the crawler on: every address has one
    page, and the disk maps a path to the size of the file there. *)

Module Sim.

Record page : Type := mkPage {
  p_title : option string;        (* text of "#page_header h1 a" *)
  p_links : list string;          (* hrefs of "#browse_content .browse a" *)
  p_next : option string;         (* where ".pagination a[rel=next]" leads *)
  p_name : option string;         (* text of "h1[itemprop=name]" *)
  p_panel : list PanelLink        (* links of "#download" *)
}.

Definition blank : page := mkPage None [] None None [].

Record state : Type := mkState {
  here : string;
  disk : list (string * Z);
  time : spec_float
}.

Definition goto (a : string) (s : state) : state := mkState a (disk s) (time s).

Definition store (path : string) (size : Z) (s : state) : state :=
  mkState (here s) (dict_set path size (disk s)) (time s).

Definition unlink (path : string) (s : state) : state :=
  mkState (here s)
          (filter (fun kv => negb (String.eqb kv.1 path)) (disk s)) (time s).

Section Site.

(** The pages of the site, the sizes of the remote files, and how a
    transfer of each goes. *)
Context (site : string -> page) (remote : string -> option Z)
        (script : string -> Transfer).

Definition world : World state := {|
  driver_get := goto;
  current_url := here;
  elem_present := fun css s =>
    String.eqb css "#download" && nonempty_list (p_panel (site (here s)));
  elem_text := fun css s =>
    if String.eqb css "#page_header h1 a" then p_title (site (here s))
    else if String.eqb css "h1[itemprop=name]" then p_name (site (here s))
    else None;
  elem_attr := fun _ _ _ => None;
  elems_href := fun _ s => Some (p_links (site (here s)));
  elem_click := fun css s =>
    if String.eqb css ".pagination a[rel=next]"
    then (fun a => goto a s) <$> p_next (site (here s))
    else if String.eqb css ".iconify_down_b"
    then (if nonempty_list (p_panel (site (here s))) then Some s else None)
    else None;
  panel_link := fun preference s =>
    List.find (fun l => Py.contains preference (l_text l))
              (p_panel (site (here s)));
  user_agent := fun _ => "agent";
  get_cookies := fun _ => [];
  languages := fun _ => [];
  option_click := fun _ s => s;
  content_length := fun href _ _ _ => remote href;
  clock := time;
  perform := fun href _ _ => script href;
  transferred := fun href path _ s =>
    store path (default 0 (remote href)) s;
  isdir := fun _ _ => false;
  makedirs := fun _ s => s;
  write_text := fun path text s => store path (Z.of_nat (String.length text)) s;
  getsize := fun path s => dict_get path (disk s);
  open_wb := fun path s => store path 0 s;
  lexists := fun path s => bool_decide (is_Some (dict_get path (disk s)));
  os_remove := fun path s => Some (unlink path s);
  os_link := fun _ _ dst s => Some (store dst 0 s);
  capitalize := fun text => text
|}.

End Site.

End Sim.

(** ** Example inputs *)

Module Ex.

Definition cfg : Config :=
  mkConfig "out" 3 None 60 true true true false true.

Definition no_transfer : string -> Transfer := fun _ => mkTransfer [] Completed.

(** A listing page that shows the same video twice. *)
Definition twice (a : string) : Sim.page :=
  if String.eqb a "https://vimeo.com/channels/foo/videos"
  then Sim.mkPage (Some "Foo")
                  ["https://vimeo.com/1"; "https://vimeo.com/1"] None None []
  else Sim.blank.

Definition at_foo : Sim.state :=
  Sim.mkState "https://vimeo.com/channels/foo/videos" [] (PyFloat.nearest 0).

(** An account's album listing with one album; the album page lists
    two videos and a share link to the first of them. *)
Definition albums (a : string) : Sim.page :=
  if String.eqb a "https://vimeo.com/joe/albums"
  then Sim.mkPage None ["https://vimeo.com/album/77"] None None []
  else if String.eqb a "https://vimeo.com/album/77"
  then Sim.mkPage (Some "Holidays.")
         ["https://vimeo.com/1"; "https://vimeo.com/2";
          "https://vimeo.com/channels/staffpicks/1"] None None []
  else Sim.blank.

Definition joe_albums : URL :=
  mkURL "https://vimeo.com/joe/albums" false false false true false false
        None (Some "joe") (Some "albums") None (Some "albums").

Definition nowhere : Sim.state := Sim.mkState EmptyString [] (PyFloat.nearest 0).

(** The page of video 123, "Clip", with one download link whose remote
file has 100 bytes. *)
Definition clip_href : string := "https://cdn.vimeo.com/clip.mp4".

Definition clip (a : string) : Sim.page :=
  if String.eqb a "https://vimeo.com/123"
  then Sim.mkPage None [] None (Some "Clip")
         [mkPanelLink "Original MP4" "clip.MP4" clip_href]
  else Sim.blank.

Definition clip_size (href : string) : option Z :=
  if String.eqb href clip_href then Some 100 else None.

Definition clip_world : World Sim.state := Sim.world clip clip_size no_transfer.

(** A session whose disk has a file of the given size where video 123
goes. *)
Definition with_local (size : Z) : Crawler Sim.state :=
  mkCrawler (Sim.mkState EmptyString [("out/Clip 123.mp4", size)] (PyFloat.nearest 0))
            [123] [] 0 false None 0 None 0 [].

(** No retries. *)
Definition cfg0 : Config :=
  mkConfig "out" 0 None 60 true true true false true.

(** A session in which video 123 is a member of one folder. *)
Definition in_folder : Crawler Sim.state :=
  mkCrawler nowhere [123] [("out/Holidays", {[123]})] 0 true None 0 None 0 [].

(** Two files whose names agree up to their first dot only. *)
Definition two_parts : directory :=
  [mkEntry "a.b.mp4" true 1; mkEntry "a.c.mp4" true 2].

(** Three copies of one video, a file without a dot, and a directory. *)
Definition copies : directory :=
  [mkEntry "Clip 7.mp4" true 20; mkEntry "Clip 7.flv" true 30;
   mkEntry "VimeoCrawler" true 5; mkEntry "Clip 7.mov" true 10;
   mkEntry "Clip 8.mp4" true 1; mkEntry "Holidays.d" false 0].

End Ex.

(** ** Options *)

(** Lines 258-263: the value of [-t], a non-negative integer. *)
Definition parse_timeout (value : string) : result Z :=
  match Py.int value with
  | Ok n => if n <? 0 then Raise ValueError else Ok n
  | Raise _ => Raise ValueError
  end.

(** * Properties *)

(** ** Sanity checks of the string primitives and of the classifier *)

Example replace_three_slashes : Py.replace "//" "/" "a///b" = "a//b".
Proof. reflexivity. Qed.

Example split_empty : Py.split "/" EmptyString = [EmptyString].
Proof. reflexivity. Qed.

Example split_two : Py.split "/videos" "/videos/x/videos" = [EmptyString; "/x"; EmptyString].
Proof. reflexivity. Qed.

Example strip_then_rstrip : Py.rstrip_chars "." (Py.strip " a. .") = "a. ".
Proof. reflexivity. Qed.

Example str_of_int : Py.str 123456 = "123456" /\ Py.str 0 = "0".
Proof. split; reflexivity. Qed.

Example classify_video :
  URL_of_string "https://vimeo.com/123456"
  = Ok (mkURL "https://vimeo.com/123456" false true false false false false
              (Some 123456) None None None None).
Proof. reflexivity. Qed.

Example classify_bare_id :
  URL_init (ArgInt 123456)
  = Ok (mkURL "https://vimeo.com/123456" false true false false false false
              (Some 123456) None None None None).
Proof. reflexivity. Qed.

Example classify_account :
  URL_of_string "https://vimeo.com/someaccount"
  = Ok (mkURL "https://vimeo.com/someaccount" false false true false false false
              None (Some "someaccount") None None (Some "someaccount")).
Proof. reflexivity. Qed.

Example classify_channel :
  URL_of_string "http://Vimeo.com/channels/Foo/"
  = Ok (mkURL "http://Vimeo.com/channels/Foo/videos" false false false false
              false true None None None (Some "channels") (Some "foo")).
Proof. reflexivity. Qed.

Example classify_album :
  URL_of_string "https://vimeo.com/album/77"
  = Ok (mkURL "https://vimeo.com/album/77" false false false false
              false true None None None (Some "album") (Some "77")).
Proof. reflexivity. Qed.

Example classify_share_link :
  URL_of_string "https://vimeo.com/channels/staffpicks/4242"
  = Ok (mkURL "https://vimeo.com/4242" false true false false false false
              (Some 4242) None None None None).
Proof. reflexivity. Qed.

Example classify_system :
  (fields <$> match URL_of_string "https://vimeo.com/help" with
              | Ok u => Some u | Raise _ => None end)
  = Some (true, false, false, false, false, false, None, None, None, None, None).
Proof. reflexivity. Qed.

Example classify_foreign : URL_of_string "https://example.org/a" = Raise ValueError.
Proof. reflexivity. Qed.

(** ** Facts about the string primitives *)

Section StringFacts.

#[local] Arguments String.append !s1 s2 : simpl nomatch.

Lemma append_assoc (a b c : string) : (a +:+ b) +:+ c = a +:+ (b +:+ c).
Proof. induction a as [|x a IH]; cbn; [done|]. by rewrite IH. Qed.



Lemma length_append (a b : string) :
  String.length (a +:+ b) = (String.length a + String.length b)%nat.
Proof. induction a as [|x a IH]; cbn; [done|]. by rewrite IH. Qed.

Lemma map_chr_append f (a b : string) :
  Py.map_chr f (a +:+ b) = Py.map_chr f a +:+ Py.map_chr f b.
Proof. induction a as [|x a IH]; cbn; [done|]. by rewrite IH. Qed.

Lemma all_chr_append p (a b : string) :
  Py.all_chr p (a +:+ b) = Py.all_chr p a && Py.all_chr p b.
Proof. induction a as [|x a IH]; cbn; [done|]. by rewrite IH, andb_assoc. Qed.

Lemma all_chr_impl (p q : ascii -> bool) s :
  (forall c, p c = true -> q c = true) ->
  Py.all_chr p s = true -> Py.all_chr q s = true.
Proof.
  intros Hpq. induction s as [|c s IH]; cbn; [done|].
  intros [Hc Hs]%andb_true_iff. by rewrite (Hpq c Hc), IH.
Qed.

Lemma map_chr_id f s :
  Py.all_chr (fun c => Ascii.eqb (f c) c) s = true -> Py.map_chr f s = s.
Proof.
  induction s as [|c s IH]; cbn; [done|].
  intros [Hc Hs]%andb_true_iff. apply Ascii.eqb_eq in Hc. by rewrite Hc, IH.
Qed.



Lemma drop_append (a b : string) : Py.drop (String.length a) (a +:+ b) = b.
Proof. induction a as [|x a IH]; cbn; [by destruct b|done]. Qed.

Lemma endswith_append (a p : string) : Py.endswith p (a +:+ p) = true.
Proof.
  unfold Py.endswith. rewrite length_append.
  replace (String.length a + String.length p - String.length p)%nat
    with (String.length a) by lia.
  rewrite drop_append, String.eqb_refl, andb_true_r.
  apply Nat.leb_le. lia.
Qed.



End StringFacts.

(** ** The link classifier on canonical links *)

Section Canonical.

#[local] Arguments String.append !s1 s2 : simpl nomatch.







Lemma segment_nonempty s : is_segment s = true -> s <> EmptyString.
Proof. by destruct s. Qed.




Lemma segments_ok_tail s t : t <> [] -> segments_ok (s :: t) -> segments_ok t.
Proof. intros Ht [_ [_ H]%andb_true_iff]. by split. Qed.








End Canonical.

Section Idempotence.

#[local] Arguments String.append !s1 s2 : simpl nomatch.






Lemma classify_inv x toks u :
  classify x toks = Ok u ->
  url u = (if isFolder u && negb (bool_decide (folder u = Some "album"))
              && negb (Py.endswith "videos" x)
           then x +:+ "/videos" else x)
  /\ (isFolder u = true -> List.length toks = 2%nat).
Proof.
  unfold classify. intros H.
  match type of H with
  | bind_result ?r _ = _ => destruct r as [v|e]; [|discriminate]
  end.
  cbn [bind_result] in H. injection H as <-. cbn. split; [done|].
  intros [H _]%andb_true_iff. by apply Nat.eqb_eq.
Qed.

Lemma endswith_videos x : Py.endswith "videos" (x +:+ "/videos") = true.
Proof.
  change "/videos" with ("/" +:+ "videos").
  rewrite <- append_assoc. apply endswith_append.
Qed.







End Idempotence.

(** ** The classifier: idempotence, folder suffix, shortcut, equality *)

(** C7: the link "https://vimeo.com/channels/foo/Videos" is a Folder node
    of kind "channels" named "foo": line 160 finds the trailing segment
    among the lower-cased tokens and drops it. Line 173 looks for the
    suffix in the text as it was written, misses "Videos" and appends
    "/videos". The normalised text,
    "https://vimeo.com/channels/foo/Videos/videos", has four segments and
    classifies to a node of another kind without folder or name: the
    classifier is not idempotent there. *)
Lemma classifier_not_idempotent :
  exists u u',
    URL_of_string "https://vimeo.com/channels/foo/Videos" = Ok u
    /\ kind_of u = Folder
    /\ folder u = Some "channels" /\ name u = Some "foo"
    /\ url u = "https://vimeo.com/channels/foo/Videos/videos"
    /\ URL_of_string (url u) = Ok u'
    /\ kind_of u' = Other
    /\ folder u' = None /\ name u' = None
    /\ ~ idempotent_at "https://vimeo.com/channels/foo/Videos".
Proof.
  eexists _, _. split; [reflexivity|]. do 4 (split; [reflexivity|]).
  split; [vm_compute; reflexivity|]. do 3 (split; [reflexivity|]).
  intros H. destruct (H _ eq_refl) as (u' & Hu' & Hk & _).
  vm_compute in Hu'. injection Hu' as <-. discriminate Hk.
Qed.



(** Outside the canonical form the fixpoint is lost in other ways too: a
    run of three slashes is only halved by the one pass of [replace], a
    blank before a trailing slash is only stripped the second time, and
    a link without a scheme loses its only slash. *)
Example not_idempotent_three_slashes : ~ idempotent_at "https://vimeo.com///a".
Proof.
  intros H. destruct (H _ eq_refl) as (u' & Hu' & Hk & _).
  vm_compute in Hu'. injection Hu' as <-. discriminate Hk.
Qed.

Example not_idempotent_inner_blank : ~ idempotent_at "https://vimeo.com/a /".
Proof.
  intros H. destruct (H _ eq_refl) as (u' & Hu' & _ & Hf).
  vm_compute in Hu'. injection Hu' as <-. discriminate Hf.
Qed.

Example not_idempotent_without_scheme : ~ idempotent_at "vimeo.com/".
Proof.
  intros H. destruct (H _ eq_refl) as (u' & Hu' & _ & Hf).
  vm_compute in Hu'. injection Hu' as <-. discriminate Hf.
Qed.

(** The canonical links do classify. *)
Example canonical_folder_classifies :
  exists u, URL_of_string (canonical ["channels"; "foo"]) = Ok u
            /\ kind_of u = Folder
            /\ url u = "https://vimeo.com/channels/foo/videos".
Proof. eexists. split; [reflexivity|]. split; reflexivity. Qed.

(** What does hold of the folder suffix: an album keeps the text it was
    classified from, and any other folder ends in "videos". *)
Lemma album_keeps_text x toks u :
  classify x toks = Ok u -> folder u = Some "album" -> url u = x.
Proof.
  intros [Hurl _]%classify_inv Hf. rewrite Hurl, Hf.
  rewrite bool_decide_eq_true_2 by done.
  by rewrite andb_false_r.
Qed.

Lemma other_folder_ends_in_videos x toks u :
  classify x toks = Ok u -> isFolder u = true -> folder u <> Some "album" ->
  Py.endswith "videos" (url u) = true.
Proof.
  intros [Hurl _]%classify_inv Hf Hn. rewrite Hurl, Hf.
  rewrite bool_decide_eq_false_2 by done. cbn [andb negb].
  destruct (Py.endswith "videos" x) eqn:E; cbn [negb]; [done|].
  apply endswith_videos.
Qed.

(** C8: the channel link "https://vimeo.com/channels/myvideos" is a Folder
    node of kind "channels", and its normalised text is left as it is: it
    does not end in "/videos". The test on line 173 looks for the suffix
    "videos", without the slash. *)
Lemma folder_suffix_missing :
  exists u, URL_of_string "https://vimeo.com/channels/myvideos" = Ok u
            /\ kind_of u = Folder
            /\ folder u = Some "channels"
            /\ url u = "https://vimeo.com/channels/myvideos"
            /\ Py.endswith "/videos" (url u) = false.
Proof. eexists. split; [reflexivity|]. repeat split. Qed.

(** C9: for the channel link "https://vimeo.com/channels/videosofmine" the
    shortcut text names "https://vimeo.com/channels": [split('/videos')[0]]
    cuts the address at the first "/videos", which here is inside the
    channel name. *)
Lemma shortcut_cut_inside_name :
  exists u, URL_of_string "https://vimeo.com/channels/videosofmine" = Ok u
            /\ kind_of u = Folder
            /\ url u = "https://vimeo.com/channels/videosofmine/videos"
            /\ shortcut_text u
               = "[InternetShortcut]" +:+ String "010"
                   ("URL=https://vimeo.com/channels" +:+ String "010" EmptyString).
Proof. eexists. split; [reflexivity|]. repeat split. Qed.

(** The same happens at an account root whose name starts with "videos". *)
Example shortcut_cut_account :
  exists u, URL_of_string "https://vimeo.com/videosbyjoe" = Ok u
            /\ kind_of u = Account
            /\ shortcut_text u
               = "[InternetShortcut]" +:+ String "010"
                   ("URL=https://vimeo.com" +:+ String "010" EmptyString).
Proof. eexists. split; [reflexivity|]. repeat split. Qed.

(** Where "/videos" occurs at the end only, the shortcut is as intended. *)
Example shortcut_plain_channel :
  exists u, URL_of_string "https://vimeo.com/channels/foo" = Ok u
            /\ shortcut_text u
               = "[InternetShortcut]" +:+ String "010"
                   ("URL=https://vimeo.com/channels/foo" +:+ String "010" EmptyString).
Proof. eexists. split; reflexivity. Qed.

(** C4: a page listing the same link twice yields two nodes with the same
    normalised text and the same hash that do not compare equal, so the
    uniqueness assertion of [getItemsFromPage] lets them through. *)
Lemma equal_links_unequal_nodes (hash : string -> Z) :
  exists a b c,
    getItemsFromPage (Sim.world Ex.twice (fun _ => None) Ex.no_transfer) Ex.cfg
      (new_session Ex.at_foo None None) = (c, Ok [a; b])
    /\ url (val a) = url (val b)
    /\ URL_hash hash a = URL_hash hash b
    /\ URL_eq a b = false
    /\ List.length (set_of [a; b]) = 2%nat.
Proof.
  eexists _, _, _. split; [vm_compute; reflexivity|]. repeat split.
Qed.

(** ** File names *)

Section FileNames.

#[local] Arguments String.append !s1 s2 : simpl nomatch.

Lemma cleanup_append a b :
  cleanupFileName (a +:+ b) = cleanupFileName a +:+ cleanupFileName b.
Proof. apply map_chr_append. Qed.

Lemma cleanup_valid s :
  Py.all_chr is_valid_chr s = true -> cleanupFileName s = s.
Proof.
  intros H. apply map_chr_id. eapply all_chr_impl, H.
  intros c Hc. unfold cleanup_chr, is_valid_chr in *.
  apply negb_true_iff in Hc. rewrite Hc. apply Ascii.eqb_refl.
Qed.

Lemma cleanup_is_valid s : Py.all_chr is_valid_chr (cleanupFileName s) = true.
Proof.
  induction s as [|c s IH]; [done|]. cbn [cleanupFileName Py.map_chr Py.all_chr].
  apply andb_true_iff. split; [|exact IH].
  unfold cleanup_chr. destruct (Py.chr_in c INVALID_FILENAME_CHARS) eqn:E.
  - reflexivity.
  - unfold is_valid_chr. by rewrite E.
Qed.

(** The decimal text of a number has valid characters only. *)
Lemma uint_valid (d : Decimal.uint) :
  Py.all_chr is_valid_chr (NilEmpty.string_of_uint d) = true.
Proof. induction d; cbn [NilEmpty.string_of_uint Py.all_chr]; by rewrite ?IHd. Qed.

Lemma str_valid n : Py.all_chr is_valid_chr (Py.str n) = true.
Proof.
  destruct n; unfold Py.str, Py.str_nat; cbn [String.append Py.all_chr];
    by rewrite ?uint_valid.
Qed.

Lemma join_title_id title n :
  Py.join " " ((if nonempty title then [title] else []) ++ [Py.str n])
  = (if nonempty title then title +:+ " " else EmptyString) +:+ Py.str n.
Proof. destruct title; cbn; [done|]. by rewrite append_assoc. Qed.

End FileNames.

(** C3, as stated, fails: for the title "Clip", the video 123 and the
    extension "MP4" the file is "Clip 123.mp4", not "Clip.mp4". *)
Lemma fileName_is_not_title_only :
  fileName_of "Clip" 123 "MP4" <> fileName_as_specified "Clip" 123 "MP4".
Proof. vm_compute. discriminate. Qed.

Example fileName_of_clip :
  fileName_of "Clip" 123 "MP4" = "Clip 123.mp4"
  /\ fileName_as_specified "Clip" 123 "MP4" = "Clip.mp4"
  /\ fileName_of EmptyString 123 "MP4" = "123.mp4"
  /\ fileName_of "a/b: c?" 7 "M*V" = "a_b_ c_ 7.m_v".
Proof. repeat split. Qed.

(** C3, amended: the local file name is the sanitised title followed by a
    space and the decimal video ID (the video ID alone when the title is
    empty), then a dot and the sanitised lower-cased extension. *)
Theorem fileName_shape (title : string) (v : Z) (extension : string) :
  fileName_of title v extension
  = (if nonempty title then cleanupFileName title +:+ " " else EmptyString)
    +:+ Py.str v +:+ "." +:+ cleanupFileName (Py.lower extension).
Proof.
  unfold fileName_of. rewrite join_title_id, !cleanup_append.
  rewrite (cleanup_valid (Py.str v)) by apply str_valid.
  change (cleanupFileName ".") with ".".
  destruct (nonempty title).
  - rewrite cleanup_append. change (cleanupFileName " ") with " ".
    by rewrite !append_assoc.
  - by rewrite !append_assoc.
Qed.

(** The title part is the page text stripped of surrounding blanks and
    then of trailing dots; no invalid character is left in the name. *)
Lemma fileName_valid title v extension :
  Py.all_chr is_valid_chr (fileName_of title v extension) = true.
Proof. apply cleanup_is_valid. Qed.

(** ** The stall detector *)

Section Stall.

Import ProgressIndicator.

Lemma show_fields total p :
  timeout (show total p) = timeout p
  /\ lastData (show total p) = lastData p
  /\ totalRead (show total p) = totalRead p.
Proof. done. Qed.

(** What a callback that returns leaves: the time and the count of the
    last progress are those of the callback when it reports more bytes,
    and are kept otherwise. *)
Lemma update_ok now total p p' :
  update now total p = Ok p' ->
  timeout p' = timeout p
  /\ (lastData p', totalRead p')
     = if totalRead p <? total then (now, total) else (lastData p, totalRead p).
Proof.
  unfold update. destruct (Z.leb_spec total (totalRead p)) as [Hle|Hgt].
  - assert ((totalRead p <? total) = false) as -> by (apply Z.ltb_ge; lia).
    destruct (PyFloat.add_int _ _) as [deadline|]; [|done].
    destruct (PyFloat.gt now deadline); [done|]. by intros [= <-].
  - assert ((totalRead p <? total) = true) as -> by (apply Z.ltb_lt; lia).
    by intros [= <-].
Qed.

(** A callback without new bytes raises exactly when it comes after the
    deadline. *)
Lemma update_no_progress now total p deadline :
  total <= totalRead p ->
  PyFloat.add_int (lastData p) (timeout p) = Ok deadline ->
  update now total p
  = if PyFloat.gt now deadline then Raise CurlError else Ok (show total p).
Proof.
  intros Hle Hd. unfold update.
  assert ((total <=? totalRead p) = true) as -> by by apply Z.leb_le.
  by rewrite Hd.
Qed.

(** A callback with new bytes returns. *)
Lemma update_progress now total p :
  totalRead p < total ->
  exists p', update now total p = Ok p'.
Proof.
  intros Hlt. unfold update.
  assert ((total <=? totalRead p) = false) as -> by (apply Z.leb_gt; lia).
  eauto.
Qed.

Lemma feed_snoc cbs now total k p p1 k1 :
  feed cbs k p = (p1, k1, false) ->
  feed (cbs ++ [(now, total)]) k p =
    match update now total p1 with
    | Ok p2 => (p2, S k1, false)
    | Raise _ => (p1, k1, true)
    end.
Proof.
  revert k p. induction cbs as [|[t n] cbs IH]; intros k p; cbn [feed app].
  - intros [= -> ->]. by destruct (update now total p1).
  - destruct (update t n p) as [p'|e]; [|discriminate]. apply IH.
Qed.

Lemma last_progress_snoc t0 n0 cbs now total :
  last_progress t0 n0 (cbs ++ [(now, total)])
  = if (last_progress t0 n0 cbs).2 <? total then (now, total)
    else last_progress t0 n0 cbs.
Proof.
  revert t0 n0. induction cbs as [|[t n] cbs IH]; intros t0 n0; cbn.
  - by destruct (n0 <? total).
  - destruct (n0 <? n); apply IH.
Qed.

(** While every callback returns, the indicator holds the last
    byte-progress event of the callbacks so far. *)
Lemma feed_last_progress cbs k p p1 k1 :
  feed cbs k p = (p1, k1, false) ->
  k1 = (k + List.length cbs)%nat
  /\ timeout p1 = timeout p
  /\ (lastData p1, totalRead p1) = last_progress (lastData p) (totalRead p) cbs.
Proof.
  revert k p. induction cbs as [|[t n] cbs IH]; intros k p; cbn [feed].
  - intros [= -> ->]. cbn. split; [lia|done].
  - destruct (update t n p) as [p'|e] eqn:Hu; [|discriminate].
    intros (-> & Ht & Hl)%IH. apply update_ok in Hu as [Ht' Hl'].
    split; [cbn; lia|]. split; [congruence|].
    rewrite Hl. cbn [last_progress].
    destruct (totalRead p <? n); by injection Hl' as -> ->.
Qed.

End Stall.

(** C6: for every sequence of callbacks of a transfer that all returned,
    the indicator holds the time and the byte count of the last callback
    that reported more bytes (the start of the transfer when none did)
    and the configured timeout. A further callback that reports no more
    bytes raises when its clock reading is greater than that time plus
    the timeout, and otherwise returns and leaves the time of the last
    progress as it is; a further callback that reports more bytes
    returns and makes its own reading the time of the last progress.
    The sum and the comparison are those of binary64 floats. *)
Theorem stall_abort (limit : Z) (t0 : spec_float) (cbs : list (spec_float * Z))
    (now : spec_float) (total : Z) (p1 : ProgressIndicator.t) (k1 : nat) :
  let start := ProgressIndicator.init limit t0 in
  let last := ProgressIndicator.last_progress t0 0 cbs in
  ProgressIndicator.feed cbs 0 start = (p1, k1, false) ->
  (k1 = List.length cbs
   /\ ProgressIndicator.timeout p1 = limit
   /\ ProgressIndicator.lastData p1 = last.1
   /\ ProgressIndicator.totalRead p1 = last.2)
  /\ (forall deadline,
        total <= last.2 ->
        PyFloat.add_int last.1 limit = Ok deadline ->
        PyFloat.gt now deadline = true ->
        ProgressIndicator.update now total p1 = Raise CurlError
        /\ ProgressIndicator.feed (cbs ++ [(now, total)]) 0 start = (p1, k1, true))
  /\ (forall deadline,
        total <= last.2 ->
        PyFloat.add_int last.1 limit = Ok deadline ->
        PyFloat.gt now deadline = false ->
        exists p2,
          ProgressIndicator.update now total p1 = Ok p2
          /\ ProgressIndicator.feed (cbs ++ [(now, total)]) 0 start = (p2, S k1, false)
          /\ ProgressIndicator.lastData p2 = last.1
          /\ ProgressIndicator.totalRead p2 = last.2
          /\ ProgressIndicator.last_progress t0 0 (cbs ++ [(now, total)]) = last)
  /\ (last.2 < total ->
      exists p2,
        ProgressIndicator.update now total p1 = Ok p2
        /\ ProgressIndicator.feed (cbs ++ [(now, total)]) 0 start = (p2, S k1, false)
        /\ ProgressIndicator.lastData p2 = now
        /\ ProgressIndicator.totalRead p2 = total
        /\ ProgressIndicator.last_progress t0 0 (cbs ++ [(now, total)])
           = (now, total)).
Proof.
  intros start last Hfeed.
  destruct (feed_last_progress _ _ _ _ _ Hfeed) as (Hk & Ht & Hl).
  change (ProgressIndicator.timeout start) with limit in Ht.
  change (ProgressIndicator.last_progress _ _ cbs) with last in Hl.
  assert (Hd : ProgressIndicator.lastData p1 = last.1) by by rewrite <- Hl.
  assert (Hn : ProgressIndicator.totalRead p1 = last.2) by by rewrite <- Hl.
  split; [done|]. split; [|split].
  - intros deadline Hle Hsum Hlate.
    assert (Hu : ProgressIndicator.update now total p1 = Raise CurlError).
    { rewrite (update_no_progress now total p1 deadline), Hlate; [done|lia|].
      by rewrite Hd, Ht. }
    split; [done|]. by rewrite (feed_snoc _ _ _ _ _ _ _ Hfeed), Hu.
  - intros deadline Hle Hsum Hlate.
    assert (Hu : ProgressIndicator.update now total p1
                 = Ok (ProgressIndicator.show total p1)).
    { rewrite (update_no_progress now total p1 deadline), Hlate; [done|lia|].
      by rewrite Hd, Ht. }
    eexists. split; [exact Hu|].
    split; [by rewrite (feed_snoc _ _ _ _ _ _ _ Hfeed), Hu|].
    split; [done|]. split; [done|].
    rewrite last_progress_snoc. fold last.
    assert ((last.2 <? total) = false) as -> by (apply Z.ltb_ge; lia).
    done.
  - intros Hlt.
    destruct (update_progress now total p1) as [p2 Hu]; [lia|].
    pose proof (update_ok _ _ _ _ Hu) as [_ Hp2].
    assert ((ProgressIndicator.totalRead p1 <? total) = true) as E
      by (apply Z.ltb_lt; lia).
    rewrite E in Hp2. injection Hp2 as Hp2d Hp2n.
    exists p2. split; [done|].
    split; [by rewrite (feed_snoc _ _ _ _ _ _ _ Hfeed), Hu|].
    split; [done|]. split; [done|].
    rewrite last_progress_snoc. fold last.
    by assert ((last.2 <? total) = true) as -> by (apply Z.ltb_lt; lia).
Qed.

(** A transfer with a timeout of 60 that starts at time 0 and reports
    10 bytes at times 1, 30 and 59: the last progress is the callback at
    time 1, so a callback at time 62 that still reports 10 bytes raises,
    and one that reports 11 bytes returns. *)
Lemma stall_abort_witness :
  let at_ := PyFloat.nearest in
  let cbs := [(at_ 1, 10); (at_ 30, 10); (at_ 59, 10)] in
  let start := ProgressIndicator.init 60 (at_ 0) in
  ProgressIndicator.last_progress (at_ 0) 0 cbs = (at_ 1, 10)
  /\ ProgressIndicator.feed (cbs ++ [(at_ 62, 10)]) 0 start
     = ((ProgressIndicator.feed cbs 0 start).1.1, 3%nat, true)
  /\ exists p2,
       ProgressIndicator.feed (cbs ++ [(at_ 62, 11)]) 0 start = (p2, 4%nat, false)
       /\ ProgressIndicator.lastData p2 = at_ 62.
Proof.
  cbv zeta.
  set (cbs := [(PyFloat.nearest 1, 10); (PyFloat.nearest 30, 10);
               (PyFloat.nearest 59, 10)]).
  set (start := ProgressIndicator.init 60 (PyFloat.nearest 0)).
  destruct (ProgressIndicator.feed cbs 0 start) as [[p1 k1] s] eqn:Hfeed.
  assert (Hs : s = false /\ k1 = 3%nat).
  { vm_compute in Hfeed. by injection Hfeed as _ <- <-. }
  destruct Hs as [-> ->].
  pose proof (stall_abort 60 (PyFloat.nearest 0) cbs (PyFloat.nearest 62) 10
                p1 3 Hfeed) as (_ & Hstall & _ & _).
  pose proof (stall_abort 60 (PyFloat.nearest 0) cbs (PyFloat.nearest 62) 11
                p1 3 Hfeed) as (_ & _ & _ & Hmore).
  split; [reflexivity|]. split.
  - apply (Hstall (PyFloat.nearest 61)); [cbn; lia|reflexivity|reflexivity].
  - destruct Hmore as (p2 & _ & Hf & Hl & _); [cbn; lia|]. eauto.
Defined.

(** The sum is rounded: from a last progress at 4.263256414560601e-15
    the deadline for a timeout of 60 is 60.00000000000001, the float
    next above 60, and a callback at that reading returns. *)
Example deadline_is_rounded :
  let t0 := S754_finite false 5404319552844595 (-100) in
  let now := S754_finite false 8444249301319681 (-47) in
  PyFloat.add_int t0 60 = Ok now
  /\ ProgressIndicator.update now 0 (ProgressIndicator.init 60 t0)
     = Ok (ProgressIndicator.show 0 (ProgressIndicator.init 60 t0)).
Proof. split; reflexivity. Qed.

(** ** The registry invariant of the walker *)

Section Registry.

Context {W : Type} (os : World W) (cfg : Config).

#[local] Abbreviation M := (@M W).

Lemma advances_refl (c : Crawler W) : advances c c.
Proof. split; [done|]. split; [done|lia]. Qed.

Lemma advances_trans (c1 c2 c3 : Crawler W) :
  advances c1 c2 -> advances c2 c3 -> advances c1 c3.
Proof.
  intros (H1 & P1 & L1) (H2 & P2 & L2). split; [auto|]. split; [by etrans|lia].
Qed.

(** A step that leaves the video list and the folders alone. *)
Lemma advances_same (c c' : Crawler W) :
  vIDs c' = vIDs c -> folders c' = folders c -> advances c c'.
Proof.
  intros Hv Hf. unfold advances, registry_ok. rewrite Hv, Hf.
  split; [done|]. split; [done|lia].
Qed.

Lemma keeps_ret {A} (a : A) : keeps (W:=W) (ret a).
Proof. intros c c' r [= <- _]. apply advances_refl. Qed.

Lemma keeps_raise {A} e : keeps (W:=W) (A:=A) (raise e).
Proof. intros c c' r [= <- _]. apply advances_refl. Qed.

Lemma keeps_lift {A} (x : result A) : keeps (W:=W) (lift x).
Proof. intros c c' r [= <- _]. apply advances_refl. Qed.

Lemma keeps_reads {A} (f : Crawler W -> A) : keeps (reads f).
Proof. intros c c' r [= <- _]. apply advances_refl. Qed.

Lemma keeps_bind {A B} (m : M A) (k : A -> M B) :
  keeps m -> (forall a, keeps (k a)) -> keeps (bind m k).
Proof.
  intros Hm Hk c c' r. unfold bind.
  destruct (m c) as [c1 [a|e]] eqn:E.
  - intros H. eapply advances_trans; [by eapply Hm|by eapply Hk].
  - intros [= <- _]. by eapply Hm.
Qed.

Lemma keeps_update (f : Crawler W -> Crawler W) :
  (forall c, advances c (f c)) -> keeps (update f).
Proof. intros Hf c c' r [= <- _]. apply Hf. Qed.

Lemma keeps_act ev (f : W -> W) : keeps (act ev f).
Proof. apply keeps_update. intros c. by apply advances_same. Qed.

Lemma keeps_add_error : keeps (W:=W) add_error.
Proof. apply keeps_update. intros c. by apply advances_same. Qed.

Lemma keeps_for_each {A} (l : list A) (body : A -> M unit) :
  (forall x, keeps (body x)) -> keeps (for_each l body).
Proof.
  intros Hb. induction l as [|x l IH]; cbn [for_each].
  - apply keeps_ret.
  - apply keeps_bind; [apply Hb|]. intros _. apply IH.
Qed.

End Registry.

(** One step of a proof that a method keeps the invariant. *)
Ltac keeps_step :=
  match goal with
  | |- keeps (bind _ _) => apply keeps_bind; [|intros ?]
  | |- keeps (ret _) => apply keeps_ret
  | |- keeps (raise _) => apply keeps_raise
  | |- keeps (lift _) => apply keeps_lift
  | |- keeps (reads _) => apply keeps_reads
  | |- keeps add_error => apply keeps_add_error
  | |- keeps (act _ _) => apply keeps_act
  | |- keeps (update _) =>
      apply keeps_update; intros ?; by apply advances_same
  | |- keeps (for_each _ _) => apply keeps_for_each; intros ?
  | |- keeps (if ?b then _ else _) => destruct b
  | |- keeps (match ?x with _ => _ end) => destruct x
  end.

Ltac keeps_auto := repeat (keeps_step || solve [auto]).

Section Walk.

Context {W : Type} (os : World W) (cfg : Config).

Lemma keeps_URL_new a : keeps (W:=W) (URL_new a).
Proof. unfold URL_new. keeps_auto. Qed.

Lemma keeps_createDir d : keeps (createDir os cfg d).
Proof. unfold createDir. keeps_auto. Qed.

Lemma keeps_createFile u d : keeps (createFile os u d).
Proof. unfold createFile. keeps_auto. Qed.

Lemma keeps_goTo a : keeps (goTo os a).
Proof. unfold goTo. pose proof keeps_URL_new. keeps_auto. Qed.

Lemma keeps_try_click css : keeps (try_click os css).
Proof. unfold try_click. keeps_auto. Qed.

Lemma keeps_URL_new_all links : keeps (W:=W) (URL_new_all links).
Proof.
  induction links as [|l links IH]; cbn [URL_new_all]; [apply keeps_ret|].
  pose proof keeps_URL_new. keeps_auto.
Qed.

Lemma keeps_getItemsFromPage : keeps (getItemsFromPage os cfg).
Proof. unfold getItemsFromPage. pose proof keeps_URL_new_all. keeps_auto. Qed.

Lemma keeps_pages budget bounded items : keeps (pages os cfg budget bounded items).
Proof.
  revert items. induction budget as [|n IH]; intros items; cbn [pages].
  - keeps_auto.
  - pose proof keeps_getItemsFromPage. pose proof keeps_try_click. keeps_auto.
Qed.

Lemma keeps_getItemsFromFolder fuel : keeps (getItemsFromFolder os cfg fuel).
Proof. unfold getItemsFromFolder. pose proof keeps_pages. keeps_auto. Qed.

(** The Video step, lines 370-374. *)
Lemma visit_video_run v target (c : Crawler W) :
  visit_video v target c
  = (let c1 := if bool_decide (v ∈ vIDs c) then c
               else set_vIDs (vIDs c ++ [v]) c in
     match target with
     | Some i => set_folders (alter (fun f => (f.1, {[v]} ∪ f.2)) i (folders c1)) c1
     | None => c1
     end, Ok tt).
Proof. unfold visit_video. by destruct target. Qed.

Lemma visit_video_listed v target (c c' : Crawler W) r :
  visit_video v target c = (c', r) ->
  r = Ok tt /\ v ∈ vIDs c'
  /\ vIDs c' = (if bool_decide (v ∈ vIDs c) then vIDs c else vIDs c ++ [v]).
Proof.
  rewrite visit_video_run. intros [= <- <-]. split; [done|].
  destruct target; cbn; case_bool_decide; cbn; set_solver.
Qed.

Lemma visit_video_member v i (c c' : Crawler W) r f :
  visit_video v (Some i) c = (c', r) ->
  folders c !! i = Some f ->
  folders c' !! i = Some (f.1, {[v]} ∪ f.2).
Proof.
  rewrite visit_video_run. intros [= <- _] Hf. cbn.
  assert (Hsame : folders (if bool_decide (v ∈ vIDs c) then c
                           else set_vIDs (vIDs c ++ [v]) c) = folders c)
    by by case_bool_decide.
  rewrite Hsame, list_lookup_alter_eq, Hf. done.
Qed.

Lemma keeps_visit_video v target : keeps (W:=W) (visit_video v target).
Proof.
  intros c c' r H. pose proof (visit_video_listed _ _ _ _ _ H) as (_ & Hin & Hv).
  rewrite visit_video_run in H. injection H as <- _.
  assert (H1 : advances c (if bool_decide (v ∈ vIDs c) then c
                           else set_vIDs (vIDs c ++ [v]) c)).
  { case_bool_decide as Hd; [apply advances_refl|]. split; [|split].
    - intros [Hn Hf]. split; cbn.
      + apply NoDup_app. split; [done|]. split; [|apply NoDup_singleton].
        intros x Hx Hx'. apply list_elem_of_singleton in Hx' as ->. done.
      + eapply Forall_impl; [exact Hf|]. cbn. intros f Hm x Hx.
        apply elem_of_app. left. by apply Hm.
    - cbn. by apply prefix_app_r.
    - cbn. lia. }
  destruct target as [i|]; [|exact H1].
  eapply advances_trans; [exact H1|].
  set (c1 := if bool_decide (v ∈ vIDs c) then c else set_vIDs (vIDs c ++ [v]) c) in *.
  split; [|split; [done|cbn; rewrite length_alter; lia]].
  intros [Hn Hf]. split; [done|]. cbn.
  apply Forall_alter; [done|]. intros f _ Hm x. cbn.
  intros [->%elem_of_singleton|Hx]%elem_of_union; [exact Hin|by apply Hm].
Qed.

Lemma keeps_register d :
  keeps (W:=W) (update (fun c => set_folders (folders c ++ [(d, ∅)]) c)).
Proof.
  apply keeps_update. intros c. split; [|split; [done|cbn; rewrite length_app; lia]].
  intros [Hn Hf]. split; [done|]. cbn.
  apply Forall_app. split; [done|]. apply Forall_singleton. cbn.
  intros v Hv. by apply not_elem_of_empty in Hv.
Qed.

Lemma keeps_open_folder u title target : keeps (open_folder os cfg u title target).
Proof.
  unfold open_folder.
  pose proof keeps_createDir. pose proof keeps_createFile.
  pose proof keeps_register. keeps_auto.
Qed.

(** The target that opening a folder hands on is a registered folder. *)
Lemma open_folder_target u title target (c c' : Crawler W) t :
  open_folder os cfg u title target c = (c', Ok t) ->
  target_ok target c -> target_ok t c'.
Proof.
  intros H Hok. pose proof (keeps_open_folder u title target _ _ _ H) as (_ & _ & Hlen).
  revert H. unfold open_folder, bind, reads, ret, update.
  destruct (doCreateFolders c); [|intros [= <- <-]; exact Hok].
  destruct (createDir os cfg _ c) as [c1 [d|e]] eqn:E1; [|discriminate].
  destruct (createFile os u d c1) as [c2 [[]|e]] eqn:E2; [|discriminate].
  destruct (symlink cfg).
  - intros [= <- <-] i [= <-]. cbn. rewrite length_app. cbn. lia.
  - intros [= <- <-] i Hi. specialize (Hok i Hi). lia.
Qed.

Lemma keeps_folder_attempts fuel u k title target :
  keeps (folder_attempts os cfg fuel u k title target).
Proof.
  revert title target. induction k as [|k IH]; intros title target;
    cbn [folder_attempts]; [apply keeps_ret|].
  pose proof keeps_goTo. pose proof keeps_open_folder.
  pose proof keeps_getItemsFromFolder. keeps_auto.
Qed.

Lemma keeps_getItemsFromURL fuel a target :
  keeps (getItemsFromURL os cfg fuel a target).
Proof.
  revert a target. induction fuel as [|fuel IH]; intros a target;
    cbn [getItemsFromURL]; [apply keeps_raise|].
  pose proof keeps_URL_new. pose proof keeps_createFile.
  pose proof keeps_goTo. pose proof keeps_visit_video.
  pose proof keeps_getItemsFromFolder. pose proof keeps_getItemsFromPage.
  pose proof keeps_folder_attempts. keeps_auto.
Qed.

Lemma new_session_ok w start language : registry_ok (new_session (W:=W) w start language).
Proof. split; cbn; [apply NoDup_nil_2|done]. Qed.

End Walk.

(** C1: whatever the crawl meets and however it ends, the session it
    leaves lists no video ID twice and every member of a registered
    folder is a listed video; [getItemsFromURL] keeps this from any state
    where it holds, only ever appends to the list and leaves a membership
    target the index of a registered folder; and the Video step
    appends the ID exactly when it is absent and adds it to the set of
    the membership target. *)
Theorem registry_invariant {W : Type} (os : World W) (cfg : Config) :
  (forall fuel w start language,
      registry_ok (crawl os cfg fuel w start language).1)
  /\ (forall fuel a target (c : Crawler W),
         registry_ok c ->
         registry_ok (getItemsFromURL os cfg fuel a target c).1
         /\ vIDs c `prefix_of` vIDs (getItemsFromURL os cfg fuel a target c).1
         /\ (target_ok target c ->
             target_ok target (getItemsFromURL os cfg fuel a target c).1))
  /\ (forall v target (c : Crawler W),
         registry_ok c ->
         let c' := (visit_video v target c).1 in
         registry_ok c'
         /\ vIDs c' = (if bool_decide (v ∈ vIDs c) then vIDs c else vIDs c ++ [v])
         /\ forall i f, target = Some i -> folders c !! i = Some f ->
                        folders c' !! i = Some (f.1, {[v]} ∪ f.2)).
Proof.
  assert (Hwalk : forall fuel a target (c : Crawler W),
             advances c (getItemsFromURL os cfg fuel a target c).1).
  { intros fuel a target c.
    destruct (getItemsFromURL os cfg fuel a target c) as [c' r] eqn:E.
    by eapply keeps_getItemsFromURL. }
  split; [|split].
  - intros fuel w start language. unfold crawl.
    apply Hwalk, new_session_ok.
  - intros fuel a target c Hc.
    destruct (Hwalk fuel a target c) as (H1 & H2 & H3).
    split; [auto|]. split; [done|]. intros Hok i Hi.
    specialize (Hok i Hi). lia.
  - intros v target c Hc c'. subst c'.
    destruct (visit_video v target c) as [c' r] eqn:E. cbn [fst].
    pose proof (keeps_visit_video v target _ _ _ E) as [H1 _].
    pose proof (visit_video_listed _ _ _ _ _ E) as (_ & _ & Hv).
    split; [auto|]. split; [done|].
    intros i f -> Hf. by eapply visit_video_member.
Qed.

(** The crawl of an album listing whose album shows videos 1 and 2 and
    a share link to video 1 again. *)
Lemma registry_invariant_witness :
  let c := (crawl (Sim.world Ex.albums (fun _ => None) Ex.no_transfer) Ex.cfg 4
              Ex.nowhere (Some Ex.joe_albums) None).1 in
  (crawl (Sim.world Ex.albums (fun _ => None) Ex.no_transfer) Ex.cfg 4
     Ex.nowhere (Some Ex.joe_albums) None).2 = Ok tt
  /\ vIDs c = [1; 2]
  /\ folders c = [("out/Holidays", {[1; 2]})]
  /\ registry_ok c.
Proof.
  cbv zeta. split; [vm_compute; reflexivity|].
  split; [vm_compute; reflexivity|]. split; [vm_compute; reflexivity|].
  apply (proj1 (registry_invariant
                  (Sim.world Ex.albums (fun _ => None) Ex.no_transfer) Ex.cfg)).
Defined.

(** ** The download engine *)

Section Engine.

Context {W : Type} (os : World W) (cfg : Config).

(** A local file of exactly the expected size: the attempt loop is left
    at once and the session, its world and its trace are untouched, so
    nothing is transferred. *)
Lemma matching_local_file_skips href userAgent cookies size targetFileName
    (c : Crawler W) :
  nonempty href = true -> size <> 0 ->
  getsize os targetFileName (world c) = Some size ->
  download os cfg (Some (href, userAgent, cookies)) (Some size) targetFileName c
  = (c, Ok true).
Proof.
  intros Hh Hs Hg. unfold download, check_local. rewrite Hh.
  apply Z.eqb_neq in Hs. rewrite Hs.
  unfold bind, reads, ret. rewrite Hg, Z.eqb_refl.
  by rewrite andb_false_r.
Qed.

(** A larger local file with downloads disabled: one more error, the
    loop is left, and nothing else happens. *)
Lemma larger_local_file_skips_without_download href userAgent cookies size
    localSize targetFileName (c : Crawler W) :
  doDownload cfg = false ->
  nonempty href = true -> 0 < size -> size < localSize ->
  getsize os targetFileName (world c) = Some localSize ->
  download os cfg (Some (href, userAgent, cookies)) (Some size) targetFileName c
  = (set_errors (errors c + 1) c, Ok true).
Proof.
  intros Hd Hh Hs Hlt Hg. unfold download, check_local. rewrite Hh, Hd.
  assert (E0 : (size =? 0) = false) by (apply Z.eqb_neq; lia).
  assert (E1 : (localSize =? size) = false) by (apply Z.eqb_neq; lia).
  assert (E2 : (localSize =? 0) = false) by (apply Z.eqb_neq; lia).
  assert (E3 : (size <? localSize) = true) by (apply Z.ltb_lt; lia).
  rewrite E0. unfold bind, reads, ret, add_error, update.
  by rewrite Hg, E1, E2, E3.
Qed.

(** A timeout that is no C [long] stops the transfer before the file is
    opened: the session is as before. *)
Lemma transfer_overflow href userAgent cookies targetFileName (c : Crawler W) :
  LONG_MAX < timeout cfg ->
  transfer os cfg href userAgent cookies targetFileName c = (c, Raise OverflowError).
Proof.
  intros Hbig. unfold transfer, bind, reads.
  by assert ((LONG_MAX <? timeout cfg) = true) as -> by by apply Z.ltb_lt.
Qed.

(** Otherwise a transfer opens the file for writing and runs; it never
    lowers the error count. *)
Lemma transfer_trace href userAgent cookies targetFileName (c c' : Crawler W) r :
  timeout cfg <= LONG_MAX ->
  transfer os cfg href userAgent cookies targetFileName c = (c', r) ->
  trace c' = trace c ++ [EvOpenWrite targetFileName; EvPerform href targetFileName]
  /\ errors c <= errors c'.
Proof.
  intros Hfits. unfold transfer, bind, reads, ret, add_error, act, update.
  assert ((LONG_MAX <? timeout cfg) = false) as -> by by apply Z.ltb_ge.
  cbn.
  destruct (ProgressIndicator.feed _ _ _) as [[p k] stalled]. cbn.
  destruct stalled; [|destruct (ending _)]; cbn; intros [= <- _]; cbn;
    rewrite <- app_assoc; (split; [done|lia]).
Qed.

Lemma validate_trace linkSize targetFileName (c c' : Crawler W) r :
  validate os linkSize targetFileName c = (c', r) ->
  trace c' = trace c /\ errors c <= errors c'.
Proof.
  unfold validate, bind, reads, ret, add_error, update.
  destruct (getsize os targetFileName (world c)) as [n|]; cbn;
    [|intros [= <- _]; cbn; split; [done|lia]].
  destruct (n =? 0); [intros [= <- _]; cbn; split; [done|lia]|].
  destruct linkSize as [size|]; [|intros [= <- _]; split; [done|lia]].
  destruct (size =? 0), (size <? n), (n <? size); intros [= <- _]; cbn;
    (split; [done|lia]).
Qed.

Lemma bind_ok {A B} (m : M A) (k : A -> M B) (c c1 : Crawler W) a :
  m c = (c1, Ok a) -> bind m k c = k a c1.
Proof. unfold bind. by intros ->. Qed.

Lemma bind_raise {A B} (m : M A) (k : A -> M B) (c c1 : Crawler W) e :
  m c = (c1, Raise e) -> bind m k c = (c1, Raise e).
Proof. unfold bind. by intros ->. Qed.

Lemma check_local_larger size localSize targetFileName (c : Crawler W) :
  0 < size -> size < localSize ->
  getsize os targetFileName (world c) = Some localSize ->
  check_local os (Some size) targetFileName c
  = (set_errors (errors c + 1) c, Ok (false, true)).
Proof.
  intros Hs Hlt Hg. unfold check_local.
  assert (E0 : (size =? 0) = false) by (apply Z.eqb_neq; lia).
  assert (E1 : (localSize =? size) = false) by (apply Z.eqb_neq; lia).
  assert (E2 : (localSize =? 0) = false) by (apply Z.eqb_neq; lia).
  assert (E3 : (size <? localSize) = true) by (apply Z.ltb_lt; lia).
  rewrite E0. unfold bind, reads, ret, add_error, update.
  by rewrite Hg, E1, E2, E3.
Qed.

(** A larger local file with downloads enabled: the error is counted,
    and then the file is opened for writing and the transfer is run all
    the same. *)
Lemma larger_local_file_is_transferred href userAgent cookies size localSize
    targetFileName (c : Crawler W) :
  doDownload cfg = true -> timeout cfg <= LONG_MAX ->
  nonempty href = true -> 0 < size -> size < localSize ->
  getsize os targetFileName (world c) = Some localSize ->
  exists c' r,
    download os cfg (Some (href, userAgent, cookies)) (Some size) targetFileName c
    = (c', r)
    /\ errors c + 1 <= errors c'
    /\ trace c' = trace c ++ [EvOpenWrite targetFileName;
                              EvPerform href targetFileName].
Proof.
  intros Hd Hfits Hh Hs Hlt Hg. unfold download. rewrite Hh, Hd.
  rewrite (bind_ok _ _ _ _ _ (check_local_larger _ _ _ _ Hs Hlt Hg)).
  cbn [negb andb orb].
  set (c1 := set_errors (errors c + 1) c).
  destruct (transfer os cfg href userAgent cookies targetFileName c1)
    as [c2 [ok|e]] eqn:Et;
    pose proof (transfer_trace _ _ _ _ _ _ _ Hfits Et) as [Ht He]; cbn in Ht, He.
  - unfold bind. rewrite Et. destruct ok.
    + destruct (validate os (Some size) targetFileName c2) as [c3 [ok|e]] eqn:Ev;
        pose proof (validate_trace _ _ _ _ _ Ev) as [Ht' He'].
      * exists c3. destruct ok; eexists; (split; [reflexivity|]);
          (split; [lia|congruence]).
      * exists c3. eexists. split; [reflexivity|]. split; [lia|congruence].
    + exists c2. eexists. split; [reflexivity|]. split; [lia|done].
  - unfold bind. rewrite Et.
    exists c2. eexists. split; [reflexivity|]. split; [lia|done].
Qed.

End Engine.

(** C5: video 123 has a download link of 100 bytes and the local file of
    that name has 200. The error is counted, and then the local file is
    opened for writing and downloaded again, ending at 100 bytes: the
    test on line 504 does not look at [downloadSkip]. *)
Lemma larger_local_file_overwritten :
  let c := Ex.with_local 200 in
  let c' := (processVideo Ex.clip_world Ex.cfg 123 1 c).1 in
  getsize Ex.clip_world "out/Clip 123.mp4" (world c) = Some 200
  /\ errors c' = 1
  /\ trace c' = [EvGet "https://vimeo.com/123"; EvClick ".iconify_down_b";
                 EvProbe Ex.clip_href;
                 EvOpenWrite "out/Clip 123.mp4";
                 EvPerform Ex.clip_href "out/Clip 123.mp4"]
  /\ getsize Ex.clip_world "out/Clip 123.mp4" (world c') = Some 100.
Proof. cbv zeta. repeat split; vm_compute; reflexivity. Qed.

(** With a local file of exactly 100 bytes the same video is left alone:
    the page is read and the size probed, and nothing is written. *)
Example matching_local_file_untouched :
  let c' := (processVideo Ex.clip_world Ex.cfg 123 1 (Ex.with_local 100)).1 in
  errors c' = 0
  /\ trace c' = [EvGet "https://vimeo.com/123"; EvClick ".iconify_down_b";
                 EvProbe Ex.clip_href]
  /\ getsize Ex.clip_world "out/Clip 123.mp4" (world c') = Some 100.
Proof. cbv zeta. repeat split; vm_compute; reflexivity. Qed.

(** C10: with a retry count of 0, which the option validation accepts,
    [processVideo] makes no attempt: the session, its world and its trace
    are as before (no page was opened, no link resolved, nothing
    transferred); and when some registered folder has the video among its
    members, the linking step raises on the unbound [fileName] before
    any link is made. *)
Theorem zero_retries_unbound_fileName {W : Type} (os : World W) (cfg : Config)
    (v : Z) (number : nat) (c : Crawler W) :
  retryCount cfg = 0%nat ->
  parse_retries "0" = Ok 0%nat
  /\ attempts os cfg v (retryCount cfg) None c = (c, Ok None)
  /\ ((exists f, f ∈ folders c /\ v ∈ f.2) ->
      processVideo os cfg v number c = (c, Raise UnboundLocalError))
  /\ ((forall f, f ∈ folders c -> v ∉ f.2) ->
      processVideo os cfg v number c = (c, Ok tt)).
Proof.
  intros H0. split; [reflexivity|]. rewrite H0. split; [reflexivity|].
  unfold processVideo. rewrite H0. cbn [attempts].
  unfold bind, ret, reads.
  set (dirs := map fst (filter (fun f : string * gset Z => bool_decide (v ∈ f.2))
                               (folders c))).
  split.
  - intros (f & Hf & Hv).
    assert (Hin : f.1 ∈ dirs).
    { apply list_elem_of_fmap. exists f. split; [done|].
      apply list_elem_of_filter. split; [|done]. by apply bool_decide_pack. }
    destruct dirs as [|d dirs']; [by apply not_elem_of_nil in Hin|]. done.
  - intros Hnone.
    assert (Hnil : dirs = []).
    { subst dirs. induction (folders c) as [|f l IH]; [done|].
      rewrite filter_cons. rewrite bool_decide_eq_false_2.
      - apply IH. intros g Hg. apply Hnone. by right.
      - apply Hnone. by left. }
    by rewrite Hnil.
Qed.

Lemma zero_retries_unbound_fileName_witness :
  processVideo (Sim.world Ex.clip Ex.clip_size Ex.no_transfer) Ex.cfg0 123 1
    Ex.in_folder = (Ex.in_folder, Raise UnboundLocalError).
Proof.
  apply (zero_retries_unbound_fileName
           (Sim.world Ex.clip Ex.clip_size Ex.no_transfer) Ex.cfg0 123 1
           Ex.in_folder eq_refl).
  exists ("out/Holidays", {[123]}). split; [by left|]. by apply elem_of_singleton.
Defined.

(** ** The duplicate reconciler *)

Section Reconciler.

Lemma dict_get_set {V} k k' (v : V) d :
  dict_get k (dict_set k' v d) = if String.eqb k k' then Some v else dict_get k d.
Proof.
  induction d as [|[k0 v0] d IH]; cbn.
  - done.
  - destruct (String.eqb_spec k' k0) as [->|Hne]; cbn.
    + by destruct (String.eqb k k0).
    + destruct (String.eqb_spec k k0) as [->|Hne'].
      * destruct (String.eqb_spec k0 k'); [congruence|done].
      * exact IH.
Qed.

Lemma dict_set_keys {V} k (v : V) d :
  NoDup (map fst d) -> NoDup (map fst (dict_set k v d))
  /\ (forall k', k' ∈ map fst (dict_set k v d) <-> k' = k \/ k' ∈ map fst d).
Proof.
  induction d as [|[k0 v0] d IH]; cbn.
  - intros _. split; [apply NoDup_singleton|]. intros k'.
    rewrite list_elem_of_singleton. split; [by left|]. intros [?|H]; [done|].
    by apply not_elem_of_nil in H.
  - intros [Hk0 Hd]%NoDup_cons. destruct (IH Hd) as [IH1 IH2].
    destruct (String.eqb_spec k k0) as [->|Hne]; cbn.
    + split; [by apply NoDup_cons|]. intros k'. rewrite !elem_of_cons. tauto.
    + split.
      * apply NoDup_cons. split; [|done]. rewrite IH2. intros [?|?]; congruence.
      * intros k'. rewrite !elem_of_cons, IH2. tauto.
Qed.

Lemma dict_get_elem {V} k (v : V) d :
  NoDup (map fst d) -> (k, v) ∈ d <-> dict_get k d = Some v.
Proof.
  induction d as [|[k0 v0] d IH]; cbn.
  - intros _. split; [by intros ?%not_elem_of_nil|done].
  - intros [Hk0 Hd]%NoDup_cons. rewrite elem_of_cons, (IH Hd).
    destruct (String.eqb_spec k k0) as [->|Hne]; split.
    + intros [Heq|H]; [by injection Heq as ->|]. exfalso. apply Hk0.
      apply (IH Hd) in H. apply list_elem_of_fmap. by exists (k0, v).
    + intros [= ->]. by left.
    + intros [Heq|H]; [by injection Heq|exact H].
    + intros H. by right.
Qed.

Lemma group_of_cons k e l :
  group_of k (e :: l)
  = if considered e && String.eqb (keyName_of (e_name e)) k
    then e :: group_of k l else group_of k l.
Proof.
  unfold group_of. rewrite filter_cons.
  destruct (considered e && String.eqb (keyName_of (e_name e)) k); by case_decide.
Qed.

Lemma group_of_elem k e d :
  e ∈ group_of k d <-> e ∈ d /\ considered e = true /\ keyName_of (e_name e) = k.
Proof.
  unfold group_of. rewrite list_elem_of_filter, Is_true_true, andb_true_iff.
  rewrite String.eqb_eq. tauto.
Qed.

(** The dictionary of [removeDuplicates] holds, for each key, the group
    of the key. *)
Lemma group_files_get l acc k :
  dict_get k (group_files l acc)
  = match dict_get k acc with
    | Some a => Some (a ++ group_of k l)
    | None => match group_of k l with
              | [] => None
              | g => Some g
              end
    end.
Proof.
  revert acc. induction l as [|e l IH]; intros acc.
  - cbn. destruct (dict_get k acc); by rewrite ?app_nil_r.
  - cbn [group_files]. rewrite group_of_cons. unfold considered.
    destruct (Py.chr_in "." (e_name e)); cbn [negb andb]; [|apply IH].
    destruct (e_isfile e); cbn [negb andb]; [|apply IH].
    rewrite IH, dict_get_set.
    destruct (String.eqb_spec k (keyName_of (e_name e))) as [->|Hne].
    + rewrite String.eqb_refl.
      destruct (dict_get (keyName_of (e_name e)) acc); cbn;
        by rewrite <- ?app_assoc.
    + destruct (String.eqb_spec (keyName_of (e_name e)) k); [congruence|done].
Qed.

Lemma group_files_keys l acc :
  NoDup (map fst acc) -> NoDup (map fst (group_files l acc)).
Proof.
  revert acc. induction l as [|e l IH]; intros acc Hacc; cbn [group_files]; [done|].
  destruct (negb _); [by apply IH|]. destruct (negb _); [by apply IH|].
  apply IH. by apply dict_set_keys.
Qed.

Lemma group_files_elem d k g :
  (k, g) ∈ group_files d [] <-> g = group_of k d /\ g <> [].
Proof.
  rewrite dict_get_elem by (apply group_files_keys, NoDup_nil_2).
  rewrite group_files_get. cbn.
  destruct (group_of k d) eqn:E; split.
  - done.
  - by intros [-> ?].
  - by intros [= <-].
  - by intros [-> _].
Qed.

(** [sorted] is a stable insertion sort: a permutation in ascending
    order of size. *)
Lemma insert_by_size_perm e l : insert_by_size e l ≡ₚ e :: l.
Proof.
  induction l as [|y l IH]; cbn; [done|].
  destruct (e_size e <=? e_size y); [done|].
  by rewrite IH, Permutation_swap.
Qed.

Lemma sorted_by_size_perm l : sorted_by_size l ≡ₚ l.
Proof.
  induction l as [|e l IH]; cbn; [done|].
  by rewrite insert_by_size_perm, IH.
Qed.

Lemma insert_by_size_sorted e l :
  StronglySorted by_size l -> StronglySorted by_size (insert_by_size e l).
Proof.
  induction l as [|y l IH]; cbn; intros Hl.
  - by repeat constructor.
  - apply StronglySorted_inv in Hl as [Hl Hy].
    destruct (Z.leb_spec (e_size e) (e_size y)) as [Hle|Hgt].
    + constructor; [by constructor|]. constructor; [done|].
      eapply Forall_impl; [exact Hy|]. unfold by_size. cbn. lia.
    + constructor; [by apply IH|].
      rewrite insert_by_size_perm. constructor; [|done]. unfold by_size. lia.
Qed.

Lemma sorted_by_size_sorted l : StronglySorted by_size (sorted_by_size l).
Proof.
  induction l as [|e l IH]; cbn; [constructor|]. by apply insert_by_size_sorted.
Qed.

(** The doomed files of a group are all of it but a largest one. *)
Lemma doomed_removelast g : doomed g = removelast (sorted_by_size g).
Proof. destruct g as [|x [|y g]]; done. Qed.

Lemma group_split g :
  g <> [] ->
  exists m, sorted_by_size g = doomed g ++ [m]
            /\ g ≡ₚ doomed g ++ [m]
            /\ (forall x, x ∈ g -> e_size x <= e_size m).
Proof.
  intros Hg. rewrite doomed_removelast.
  assert (Hs : sorted_by_size g <> []).
  { intros E. apply Hg. apply Permutation_nil_r. by rewrite <- E, sorted_by_size_perm. }
  pose proof (app_removelast_last (mkEntry EmptyString false 0) Hs) as E.
  set (m := List.last (sorted_by_size g) (mkEntry EmptyString false 0)) in *.
  exists m. split; [exact E|]. split; [by rewrite <- E, sorted_by_size_perm|].
  intros x Hx. rewrite <- sorted_by_size_perm, E in Hx.
  apply elem_of_app in Hx as [Hx|Hx].
  - pose proof (sorted_by_size_sorted g) as Hsort. rewrite E in Hsort.
    eapply (StronglySorted_app_1_elem_of by_size); [exact Hsort|exact Hx|].
    by apply list_elem_of_singleton.
  - apply list_elem_of_singleton in Hx as ->. lia.
Qed.

Lemma doomed_subset g x : x ∈ doomed g -> x ∈ g.
Proof.
  destruct g as [|y g]; [by cbn|]. intros Hx.
  destruct (group_split (y :: g)) as (m & _ & Hp & _); [done|].
  rewrite Hp. apply elem_of_app. by left.
Qed.

Lemma removed_names_elem d n :
  n ∈ removed_names d
  <-> exists k e, e ∈ doomed (group_of k d) /\ e_name e = n.
Proof.
  unfold removed_names. rewrite list_elem_of_In, in_flat_map. split.
  - intros ([k g] & Hkg & Hn). cbn in Hn.
    apply list_elem_of_In, group_files_elem in Hkg as [-> _].
    apply list_elem_of_In, list_elem_of_fmap in Hn as (e & -> & He). eauto.
  - intros (k & e & He & <-). exists (k, group_of k d). split.
    + apply list_elem_of_In, group_files_elem. split; [done|].
      intros E. rewrite E in He. by apply not_elem_of_nil in He.
    + apply list_elem_of_In, list_elem_of_fmap. eauto.
Qed.

Lemma remove_all_elem ns d e :
  e ∈ fold_left (fun d n => remove_entry n d) ns d
  <-> e ∈ d /\ e_name e ∉ ns.
Proof.
  revert d. induction ns as [|n ns IH]; intros d; cbn [fold_left].
  - split; [|tauto]. intros H. split; [done|]. apply not_elem_of_nil.
  - rewrite IH. unfold remove_entry.
    rewrite list_elem_of_filter, Is_true_true, negb_true_iff, String.eqb_neq.
    rewrite not_elem_of_cons. tauto.
Qed.

Lemma reconciled_elem d e :
  e ∈ reconciled d <-> e ∈ d /\ e_name e ∉ removed_names d.
Proof. apply remove_all_elem. Qed.

Lemma name_inj d e1 e2 :
  NoDup (map e_name d) -> e1 ∈ d -> e2 ∈ d -> e_name e1 = e_name e2 -> e1 = e2.
Proof.
  induction d as [|x d IH]; cbn; [by intros _ ?%not_elem_of_nil|].
  intros [Hx Hd]%NoDup_cons [->|H1]%elem_of_cons [->|H2]%elem_of_cons Hn.
  - done.
  - exfalso. apply Hx. rewrite Hn. apply list_elem_of_fmap. eauto.
  - exfalso. apply Hx. rewrite <- Hn. apply list_elem_of_fmap. eauto.
  - by apply IH.
Qed.

(** When [removeDuplicates] returns and when it raises. *)
Lemma listdir_ok path fs d :
  path <> EmptyString -> fs !! path = Some d -> listdir path fs = Ok d.
Proof.
  intros Hp Hd. unfold listdir. rewrite Hd. by destruct path.
Qed.

Lemma listdir_ok_inv path fs d :
  listdir path fs = Ok d -> path <> EmptyString /\ fs !! path = Some d.
Proof.
  unfold listdir. destruct path as [|c path]; cbn; [done|].
  destruct (fs !! String c path); [|done]. by intros [= ->].
Qed.

(** What is left of a listing. *)
Lemma reconciled_spec (d : directory) :
  NoDup (map e_name d) ->
  (forall e, e ∈ reconciled d -> e ∈ d)
  /\ (forall e, e ∈ d -> considered e = false -> e ∈ reconciled d)
  /\ (forall k, group_of k d <> [] ->
        exists m, m ∈ group_of k d /\ m ∈ reconciled d
                  /\ forall x, x ∈ group_of k d ->
                                e_size x <= e_size m
                                /\ (x <> m -> x ∉ reconciled d)).
Proof.
  intros Hnames. split; [|split].
  - intros e He. by apply reconciled_elem in He as [He _].
  - intros e He Hc. apply reconciled_elem. split; [done|].
    intros (k & e' & He' & Hn)%removed_names_elem.
    apply doomed_subset, group_of_elem in He' as (He' & Hc' & _).
    assert (e' = e) as -> by by eapply name_inj. congruence.
  - intros k Hg.
    destruct (group_split _ Hg) as (m & Hs & Hp & Hmax).
    assert (Hm : m ∈ group_of k d).
    { rewrite Hp. apply elem_of_app. right. by apply list_elem_of_singleton. }
    assert (Hnd : NoDup (doomed (group_of k d) ++ [m])).
    { rewrite <- Hp. apply NoDup_filter. by eapply NoDup_fmap_1. }
    apply NoDup_app in Hnd as (_ & Hnd & _).
    exists m. split; [done|]. split.
    + apply reconciled_elem.
      pose proof Hm as (Hmd & Hmc & Hmk)%group_of_elem. split; [done|].
      intros (k' & e' & He' & Hn)%removed_names_elem.
      pose proof He' as (He'd & _ & Hk')%doomed_subset%group_of_elem.
      assert (e' = m) as -> by by eapply name_inj.
      assert (k' = k) as -> by congruence.
      apply (Hnd m He'). by apply list_elem_of_singleton.
    + intros x Hx. split; [by apply Hmax|].
      intros Hne [_ Hin]%reconciled_elem. apply Hin.
      apply removed_names_elem. exists k, x. split; [|done].
      rewrite Hp in Hx. apply elem_of_app in Hx as [Hx|Hx]; [done|].
      by apply list_elem_of_singleton in Hx.
Qed.

End Reconciler.

(** C2, as stated, fails: "a.b.mp4" and "a.c.mp4" agree before their
    first dot, and both are left. *)
Lemma reconciler_not_by_first_dot :
  ~ reconciles_by_first_dot "out" {[ "out" := Ex.two_parts ]}.
Proof.
  intros H.
  assert (Hafter : (removeDuplicates "out" {[ "out" := Ex.two_parts ]}).1 !! "out"
                   = Some Ex.two_parts).
  { unfold removeDuplicates.
    rewrite (listdir_ok "out" _ Ex.two_parts)
      by (discriminate || apply lookup_singleton_eq).
    cbn [fst]. by rewrite lookup_insert_eq. }
  apply (H Ex.two_parts Ex.two_parts (lookup_singleton_eq _ _) Hafter
           (mkEntry "a.b.mp4" true 1) (mkEntry "a.c.mp4" true 2)).
  - by left.
  - right. by left.
  - discriminate.
  - reflexivity.
  - reflexivity.
  - reflexivity.
  - split; [by left|right; by left].
Qed.

(** C2, amended: run over a target directory named by a non-empty path,
    the reconciler returns, and changes the listing of that directory
    only. It groups the regular files with a dot in their name by the
    text before their last dot; files without a dot and entries that are
    not regular files are left alone; and of every group exactly one
    file is left, none of the group being larger, while every other file
    of the group is deleted. *)
Theorem reconciler_keeps_one_largest (targetDirectory : string)
    (fs : gmap string directory) (d : directory) :
  targetDirectory <> EmptyString ->
  fs !! targetDirectory = Some d ->
  NoDup (map e_name d) ->
  exists d',
    removeDuplicates targetDirectory fs = (<[targetDirectory := d']> fs, Ok tt)
    /\ (forall e, e ∈ d' -> e ∈ d)
    /\ (forall e, e ∈ d -> considered e = false -> e ∈ d')
    /\ (forall k, group_of k d <> [] ->
          exists m, m ∈ group_of k d /\ m ∈ d'
                    /\ forall x, x ∈ group_of k d ->
                                  e_size x <= e_size m
                                  /\ (x <> m -> x ∉ d')).
Proof.
  intros Hpath Hd Hnames. exists (reconciled d). split.
  - unfold removeDuplicates. by rewrite (listdir_ok _ _ _ Hpath Hd).
  - by apply reconciled_spec.
Qed.

(** Three copies of "Clip 7" of 20, 30 and 10 bytes in the directory
    "out": one of them is left, and none of the three is larger. *)
Lemma reconciler_keeps_one_largest_witness :
  exists d',
    removeDuplicates "out" {[ "out" := Ex.copies ]}
    = (<[ "out" := d' ]> {[ "out" := Ex.copies ]}, Ok tt)
    /\ exists m, m ∈ group_of "Clip 7" Ex.copies /\ m ∈ d'
                  /\ forall x, x ∈ group_of "Clip 7" Ex.copies ->
                                e_size x <= e_size m
                                /\ (x <> m -> x ∉ d').
Proof.
  assert (Hnames : NoDup (map e_name Ex.copies)).
  { apply (bool_decide_unpack _). vm_compute. exact I. }
  destruct (reconciler_keeps_one_largest "out" {[ "out" := Ex.copies ]} Ex.copies)
    as (d' & Hrun & _ & _ & Hgroups);
    [discriminate|apply lookup_singleton_eq|exact Hnames|].
  exists d'. split; [exact Hrun|]. apply Hgroups. discriminate.
Defined.

(** There the copy of 30 bytes is left; the file without a dot, the
    single "Clip 8" and the directory are left alone. *)
Example reconciler_on_copies :
  removeDuplicates "out" {[ "out" := Ex.copies ]}
  = (<[ "out" := [mkEntry "Clip 7.flv" true 30; mkEntry "VimeoCrawler" true 5;
                  mkEntry "Clip 8.mp4" true 1; mkEntry "Holidays.d" false 0] ]>
       {[ "out" := Ex.copies ]}, Ok tt).
Proof.
  unfold removeDuplicates.
  by rewrite (listdir_ok "out" _ Ex.copies)
    by (discriminate || apply lookup_singleton_eq).
Qed.

(** * Further properties *)

(** ** Decimal text *)

Section Decimal.

#[local] Arguments String.append !s1 s2 : simpl nomatch.







End Decimal.

Section IntOfStr.

#[local] Arguments String.append !s1 s2 : simpl nomatch.









End IntOfStr.



Example numeric_options_reject :
  parse_retries "three" = Raise ValueError
  /\ parse_retries EmptyString = Raise ValueError
  /\ parse_retries "1__0" = Raise ValueError
  /\ parse_retries " 1_0 " = Ok 10%nat
  /\ parse_timeout "+60" = Ok 60.
Proof. repeat split. Qed.

(** ** More of the classifier *)

Section Classifier.

#[local] Arguments String.append !s1 s2 : simpl nomatch.










End Classifier.



Section Dispatch.

#[local] Arguments String.append !s1 s2 : simpl nomatch.




End Dispatch.



Example two_segments_not_collapsed :
  (kind_of <$> match URL_of_string "https://vimeo.com/channels/4242" with
               | Ok u => Some u | Raise _ => None end) = Some Folder
  /\ (kind_of <$> match URL_of_string "https://vimeo.com/a/b/c/d/4242" with
                  | Ok u => Some u | Raise _ => None end) = Some Other.
Proof. split; reflexivity. Qed.



(** ** The reconciler and the target directory *)


(** The current directory holds "a.mp4" of 1 byte and "a.flv" of 2, and
    no [-d] is given: nothing is removed. *)
Example reconciler_default_directory :
  let fs : gmap string directory :=
    {[ "." := [mkEntry "a.mp4" true 1; mkEntry "a.flv" true 2] ]} in
  removeDuplicates (targetDirectory_of None) fs = (fs, Raise FileNotFoundError).
Proof. reflexivity. Qed.
